(** * dfd: the dialogue-turn controller of the appointment triage assistant

    A shallow embedding of [dfd.py]: the completion extractor
    ([extract_categorization]), the completion client ([call_openai_api]),
    the session record kept in [st.session_state] and one execution of the
    Streamlit script ([main]), followed by the properties of the
    specification that concern them.

    Python [str] values are represented by their UTF-8 bytes (Rocq
    [string]); the two characters the extractor searches for are ASCII, so
    searching and slicing agree with Python's on code points.  *)

From Stdlib Require Import ZArith List String Ascii Bool Lia.
From Stdlib Require Import Floats.SpecFloat.
Import ListNotations.

Set Warnings "-register-all".

Open Scope string_scope.
Open Scope Z_scope.

(** ** Python string operations used by the program *)
Module PyStr.

  (** [c in s] for a one-character needle. *)
Fixpoint contains (c : ascii) (s : string) : bool :=
  match s with
  | EmptyString => false
  | String a t => Ascii.eqb a c || contains c t
  end.

  (** [s.find(c)]: index of the first occurrence, [-1] when there is none. *)
Fixpoint find (c : ascii) (s : string) : Z :=
  match s with
  | EmptyString => -1
  | String a t =>
      if Ascii.eqb a c then 0
      else let r := find c t in if r <? 0 then -1 else 1 + r
  end.

  (** [s.rfind(c)]: index of the last occurrence, [-1] when there is none. *)
Fixpoint rfind (c : ascii) (s : string) : Z :=
  match s with
  | EmptyString => -1
  | String a t =>
      let r := rfind c t in
      if 0 <=? r then 1 + r else if Ascii.eqb a c then 0 else -1
  end.

Definition len (s : string) : Z := Z.of_nat (String.length s).

  (** Bound adjustment of a slice: a negative bound counts from the end,
      and every bound is clipped to [0 .. len]. *)
Definition clip (n i : Z) : Z :=
  if i <? 0 then Z.max 0 (i + n) else Z.min i n.

  (** [s[start:stop]]; empty when the adjusted bounds cross. *)
Definition slice (s : string) (start stop : Z) : string :=
  let lo := clip (len s) start in
  let hi := clip (len s) stop in
  substring (Z.to_nat lo) (Z.to_nat (hi - lo)) s.

  (** [s.startswith(p)] *)
Definition startswith (p s : string) : bool := String.prefix p s.

  (** Truth value of a string: non-empty. *)
Definition truthy (s : string) : bool :=
  match s with EmptyString => false | String _ _ => true end.

End PyStr.

(** ** Exceptions and results

    A Python computation either returns a value or raises.  The classes
    below are the ones the program can meet; [is_Exception] tells which of
    them derive from [Exception], and are therefore caught by an
    [except Exception] clause.  [st.rerun()] works by raising
    [RerunException], a [BaseException] that such a clause lets through. *)
Inductive exn : Type :=
| JSONDecodeError
| RecursionError
| ValueError
| TypeError
| KeyError
| AttributeError
| ServiceError (detail : string)
| RerunException
| KeyboardInterrupt.

Definition is_Exception (e : exn) : bool :=
  match e with
  | RerunException | KeyboardInterrupt => false
  | _ => true
  end.

Inductive res (A : Type) : Type :=
| Ok (a : A)
| Raise (e : exn).

Arguments Ok {A} a.
Arguments Raise {A} e.

Definition res_bind {A B : Type} (r : res A) (k : A -> res B) : res B :=
  match r with
  | Ok a => k a
  | Raise e => Raise e
  end.

Notation "'let*' x ':=' r 'in' k" := (res_bind r (fun x => k))
  (at level 10, x name, r at level 100, k at level 200).

(** ** Python values produced by the JSON decoder *)
Inductive value : Type :=
| PyNone
| PyBool (b : bool)
| PyInt (n : Z)
| PyFloat (f : spec_float)
| PyStr (s : string)
| PyList (l : list value)
| PyDict (d : list (string * value)).

(** A [dict] with string keys: keys are unique and keep the order of their
    first insertion. *)
Definition dict : Type := list (string * value).

Module Dict.

Fixpoint get (k : string) (d : dict) : option value :=
  match d with
  | [] => None
  | (k', v) :: d' => if String.eqb k' k then Some v else get k d'
  end.

  (** [k in d] *)
Definition mem (k : string) (d : dict) : bool :=
  match get k d with Some _ => true | None => false end.

  (** [d[k] = v] *)
Fixpoint set (k : string) (v : value) (d : dict) : dict :=
  match d with
  | [] => [(k, v)]
  | (k', v') :: d' =>
      if String.eqb k' k then (k', v) :: d' else (k', v') :: set k v d'
  end.

  (** Truth value of a dict: non-empty. *)
Definition truthy (d : dict) : bool :=
  match d with [] => false | _ :: _ => true end.

End Dict.

(** ** Floats

    A Python [float] is an IEEE 754 binary64 number; [float(text)] rounds
    the decimal it reads to the nearest one, ties to even. *)
Module PyFloat.

Definition prec : Z := 53.
Definition emax : Z := 1024.

  (** The float nearest to [m * 10^k], with sign [neg]. *)
Definition of_decimal (neg : bool) (m k : Z) : spec_float :=
  if m =? 0 then S754_zero neg
  else if 0 <=? k then
    binary_normalize prec emax (if neg then - (m * 10 ^ k) else m * 10 ^ k) 0 neg
  else
    let '(q, e, l) := SFdiv_core_binary prec emax m 0 (10 ^ (- k)) 0 in
    binary_round_aux prec emax neg q e l.

  (** [f == n] for an integer [n]: exact comparison of the two numbers. *)
Definition eq_int (f : spec_float) (n : Z) : bool :=
  match f with
  | S754_zero _ => n =? 0
  | S754_finite s m e =>
      let sm := if s then Z.neg m else Z.pos m in
      if 0 <=? e then sm * 2 ^ e =? n
      else (sm mod 2 ^ (- e) =? 0) && (sm / 2 ^ (- e) =? n)
  | _ => false
  end.

End PyFloat.

(** ** [int(text)]

    Base ten: optional whitespace around, an optional sign, decimal
    digits, single underscores allowed between two digits; anything else
    is a [ValueError], and so are more digits than [int_max_str_digits].
    Only ASCII digits and whitespace are recognised: a text that writes a
    number with digits or spaces outside ASCII, which Python also reads,
    is refused here. *)
Module PyInt.

  (** Default of [sys.get_int_max_str_digits()]. *)
Definition int_max_str_digits : nat := 4300.

Definition is_space (c : ascii) : bool :=
  ((9 <=? nat_of_ascii c) && (nat_of_ascii c <=? 13) || (nat_of_ascii c =? 32))%nat.

Definition is_digit (c : ascii) : bool :=
  (48 <=? nat_of_ascii c)%nat && (nat_of_ascii c <=? 57)%nat.

Fixpoint lstrip (s : string) : string :=
  match s with
  | String c t => if is_space c then lstrip t else s
  | EmptyString => s
  end.

  (** Digits and underscores at the head of [s]: the digits read, and the
      rest; [None] when an underscore is not followed by a digit. *)
Fixpoint scan_digits (s : string) : option (string * string) :=
  match s with
  | String c t =>
      if is_digit c then
        match scan_digits t with
        | Some (ds, r) => Some (String c ds, r)
        | None => None
        end
      else if (c =? "_")%char then
        match t with
        | String d _ => if is_digit d then scan_digits t else None
        | EmptyString => None
        end
      else Some (EmptyString, s)
  | EmptyString => Some (EmptyString, s)
  end.

Fixpoint digits_acc (acc : Z) (s : string) : Z :=
  match s with
  | String c t => digits_acc (10 * acc + (Z.of_nat (nat_of_ascii c) - 48)) t
  | EmptyString => acc
  end.

Definition of_str (s : string) : res Z :=
  let s0 := lstrip s in
  let '(neg, body) :=
    match s0 with
    | String "-" t => (true, t)
    | String "+" t => (false, t)
    | _ => (false, s0)
    end in
  match body with
  | String c _ =>
      if is_digit c then
        match scan_digits body with
        | Some (ds, rest) =>
            match lstrip rest with
            | EmptyString =>
                if (int_max_str_digits <? String.length ds)%nat
                then Raise ValueError
                else
                  let v := digits_acc 0 ds in
                  Ok (if neg then - v else v)
            | String _ _ => Raise ValueError
            end
        | None => Raise ValueError
        end
      else Raise ValueError
  | EmptyString => Raise ValueError
  end.

End PyInt.

(** ** The JSON decoder: [json.loads] with its default settings

    The decoder follows CPython's scanner: the same grammar, the same
    order of tests, [dict] semantics for repeated keys, the constants
    [NaN], [Infinity] and [-Infinity], strict strings (no raw control
    characters).  Every syntax error is a [JSONDecodeError]; nesting
    deeper than the interpreter allows is a [RecursionError], an integer
    of too many digits a [ValueError].  Text positions and messages of
    the errors are not kept. *)
Module Json.

Definition dquote : ascii := ascii_of_nat 34.

Definition is_whitespace (c : ascii) : bool :=
  (c =? " ")%char || (c =? ascii_of_nat 9)%char
  || (c =? ascii_of_nat 10)%char || (c =? ascii_of_nat 13)%char.

Definition is_digit (c : ascii) : bool :=
  (48 <=? nat_of_ascii c)%nat && (nat_of_ascii c <=? 57)%nat.

Definition digit_value (c : ascii) : Z := Z.of_nat (nat_of_ascii c) - 48.

Fixpoint skip_whitespace (s : string) : string :=
  match s with
  | String c t => if is_whitespace c then skip_whitespace t else s
  | EmptyString => s
  end.

  (** The longest prefix of decimal digits, and what follows it. *)
Fixpoint span_digits (s : string) : string * string :=
  match s with
  | String c t =>
      if is_digit c then let (ds, r) := span_digits t in (String c ds, r)
      else (EmptyString, s)
  | EmptyString => (EmptyString, s)
  end.

  (** The number written by a string of decimal digits. *)
Fixpoint digits_acc (acc : Z) (s : string) : Z :=
  match s with
  | String c t => digits_acc (10 * acc + digit_value c) t
  | EmptyString => acc
  end.

Definition digits_value (s : string) : Z := digits_acc 0 s.

  (** The parts of a number: sign, digits of the integer part, digits of
      the fraction and exponent when they are written. *)
Record numeral : Type := {
  num_neg : bool;
  num_int : string;
  num_frac : option string;
  num_exp : option Z
}.

  (** Numbers: an optional minus sign; then a single 0, or a digit from 1
      to 9 and any digits; then, optionally, a point and at least one
      digit; then, optionally, e or E, an optional sign and at least one
      digit (a point or an e not so followed ends the number before
      it). *)
Definition match_number (s : string) : option (numeral * string) :=
  let '(neg, s1) :=
    match s with
    | String "-" t => (true, t)
    | _ => (false, s)
    end in
  let integer :=
    match s1 with
    | String c t =>
        if (c =? "0")%char then Some (String c EmptyString, t)
        else if is_digit c then
          let (ds, r) := span_digits t in Some (String c ds, r)
        else None
    | EmptyString => None
    end in
  match integer with
  | None => None
  | Some (int_digits, r1) =>
      let '(frac, r2) :=
        match r1 with
        | String "." (String d t) =>
            if is_digit d then
              let (ds, r) := span_digits t in (Some (String d ds), r)
            else (None, r1)
        | _ => (None, r1)
        end in
      let '(exp, r3) :=
        match r2 with
        | String e t =>
            if (e =? "e")%char || (e =? "E")%char then
              let '(eneg, t1) :=
                match t with
                | String "-" t' => (true, t')
                | String "+" t' => (false, t')
                | _ => (false, t)
                end in
              let (ds, r) := span_digits t1 in
              match ds with
              | EmptyString => (None, r2)
              | _ => (Some (if eneg then - digits_value ds else digits_value ds), r)
              end
            else (None, r2)
        | EmptyString => (None, r2)
        end in
      Some ({| num_neg := neg; num_int := int_digits;
               num_frac := frac; num_exp := exp |}, r3)
  end.

  (** The value of a number: a float when a fraction or an exponent is
      written, an int otherwise.  [int(text)] refuses more digits than
      [int_max_str_digits] with a [ValueError]. *)
Definition number_value (n : numeral) : res value :=
  match num_frac n, num_exp n with
  | None, None =>
      if (PyInt.int_max_str_digits <? String.length (num_int n))%nat
      then Raise ValueError
      else
        let v := digits_value (num_int n) in
        Ok (PyInt (if num_neg n then - v else v))
  | _, _ =>
      let fd := match num_frac n with Some ds => ds | None => EmptyString end in
      let ex := match num_exp n with Some e => e | None => 0 end in
      let m := digits_value (num_int n ++ fd) in
      Ok (PyFloat (PyFloat.of_decimal (num_neg n) m (ex - PyStr.len fd)))
  end.

  (** UTF-8 bytes of a code point (a lone surrogate, which a Python [str]
      may hold, takes the three-byte form). *)
Definition byte (n : Z) : ascii := ascii_of_N (Z.to_N n).

Definition utf8 (c : Z) : string :=
  if c <? 128 then String (byte c) EmptyString
  else if c <? 2048 then
    String (byte (192 + c / 64)) (String (byte (128 + c mod 64)) EmptyString)
  else if c <? 65536 then
    String (byte (224 + c / 4096))
      (String (byte (128 + (c / 64) mod 64))
         (String (byte (128 + c mod 64)) EmptyString))
  else
    String (byte (240 + c / 262144))
      (String (byte (128 + (c / 4096) mod 64))
         (String (byte (128 + (c / 64) mod 64))
            (String (byte (128 + c mod 64)) EmptyString))).

Definition hex_value (c : ascii) : option Z :=
  let n := nat_of_ascii c in
  if ((48 <=? n) && (n <=? 57))%nat then Some (Z.of_nat n - 48)
  else if ((97 <=? n) && (n <=? 102))%nat then Some (Z.of_nat n - 87)
  else if ((65 <=? n) && (n <=? 70))%nat then Some (Z.of_nat n - 55)
  else None.

  (** Four hexadecimal digits, as after [\u]. *)
Definition hex4 (s : string) : option (Z * string) :=
  match s with
  | String a (String b (String c (String d t))) =>
      match hex_value a, hex_value b, hex_value c, hex_value d with
      | Some x, Some y, Some z, Some w => Some (((x * 16 + y) * 16 + z) * 16 + w, t)
      | _, _, _, _ => None
      end
  | _ => None
  end.

Definition simple_escape (c : ascii) : option ascii :=
  if (c =? dquote)%char then Some dquote
  else if (c =? "\")%char then Some "\"%char
  else if (c =? "/")%char then Some "/"%char
  else if (c =? "b")%char then Some (ascii_of_nat 8)
  else if (c =? "f")%char then Some (ascii_of_nat 12)
  else if (c =? "n")%char then Some (ascii_of_nat 10)
  else if (c =? "r")%char then Some (ascii_of_nat 13)
  else if (c =? "t")%char then Some (ascii_of_nat 9)
  else None.

Definition is_high_surrogate (c : Z) : bool := (55296 <=? c) && (c <=? 56319).
Definition is_low_surrogate (c : Z) : bool := (56320 <=? c) && (c <=? 57343).

Definition join_surrogates (hi lo : Z) : Z :=
  65536 + (hi - 55296) * 1024 + (lo - 56320).

  (** A [\uXXXX] escape, [s] starting after the [u]: the code point and
      the rest.  A high surrogate followed by an escaped low surrogate
      makes one code point; any other surrogate stands for itself. *)
Definition unicode_escape (s : string) : option (Z * string) :=
  match hex4 s with
  | None => None
  | Some (c, t) =>
      if is_high_surrogate c then
        match t with
        | String "\" (String "u" t') =>
            match hex4 t' with
            | Some (c2, t'') =>
                if is_low_surrogate c2 then Some (join_surrogates c c2, t'')
                else Some (c, t)
            | None => Some (c, t)
            end
        | _ => Some (c, t)
        end
      else Some (c, t)
  end.

  (** [scanstring]: the text of a string literal, [s] starting after the
      opening quote, and what follows the closing quote.  [fuel] bounds
      the number of characters read. *)
Fixpoint scanstring (fuel : nat) (s : string) : res (string * string) :=
  match fuel with
  | O => Raise JSONDecodeError
  | S fuel' =>
      match s with
      | EmptyString => Raise JSONDecodeError
      | String c t =>
          if (c =? dquote)%char then Ok (EmptyString, t)
          else if (c =? "\")%char then
            match t with
            | EmptyString => Raise JSONDecodeError
            | String e t' =>
                if (e =? "u")%char then
                  match unicode_escape t' with
                  | None => Raise JSONDecodeError
                  | Some (cp, rest) =>
                      match scanstring fuel' rest with
                      | Ok (body, r) => Ok (utf8 cp ++ body, r)
                      | Raise x => Raise x
                      end
                  end
                else
                  match simple_escape e with
                  | None => Raise JSONDecodeError
                  | Some ch =>
                      match scanstring fuel' t' with
                      | Ok (body, r) => Ok (String ch body, r)
                      | Raise x => Raise x
                      end
                  end
            end
          else if (nat_of_ascii c <=? 31)%nat then Raise JSONDecodeError
          else
            match scanstring fuel' t with
            | Ok (body, r) => Ok (String c body, r)
            | Raise x => Raise x
            end
      end
  end.

Definition parse_string (s : string) : res (string * string) :=
  scanstring (S (String.length s)) s.

  (** Members of an object, [s] starting at the first key.  A repeated key
      keeps its place and takes the later value.  [scan] decodes one
      value, as the scanner passed to CPython's [JSONObject]. *)
Fixpoint object_members (scan : string -> res (value * string))
    (fuel : nat) (acc : dict) (s : string) : res (value * string) :=
  match fuel with
  | O => Raise JSONDecodeError
  | S fuel' =>
      match s with
      | EmptyString => Raise JSONDecodeError
      | String c t =>
          if (c =? dquote)%char then
            match parse_string t with
            | Raise e => Raise e
            | Ok (key, r) =>
                match skip_whitespace r with
                | String ":" r1 =>
                    match scan (skip_whitespace r1) with
                    | Raise e => Raise e
                    | Ok (v, r2) =>
                        let acc' := Dict.set key v acc in
                        match skip_whitespace r2 with
                        | String "}" r3 => Ok (PyDict acc', r3)
                        | String "," r3 =>
                            object_members scan fuel' acc' (skip_whitespace r3)
                        | _ => Raise JSONDecodeError
                        end
                    end
                | _ => Raise JSONDecodeError
                end
            end
          else Raise JSONDecodeError
      end
  end.

  (** [JSONObject], [s] starting after the opening brace. *)
Definition parse_object (scan : string -> res (value * string)) (s : string)
  : res (value * string) :=
  match skip_whitespace s with
  | String "}" r => Ok (PyDict [], r)
  | s' => object_members scan (S (String.length s')) [] s'
  end.

  (** Items of an array, [s] starting at the first item. *)
Fixpoint array_items (scan : string -> res (value * string))
    (fuel : nat) (acc : list value) (s : string) : res (value * string) :=
  match fuel with
  | O => Raise JSONDecodeError
  | S fuel' =>
      match scan s with
      | Raise e => Raise e
      | Ok (v, r) =>
          match skip_whitespace r with
          | String "]" r1 => Ok (PyList (acc ++ [v]), r1)
          | String "," r1 =>
              array_items scan fuel' (acc ++ [v]) (skip_whitespace r1)
          | _ => Raise JSONDecodeError
          end
      end
  end.

  (** [JSONArray], [s] starting after the opening bracket. *)
Definition parse_array (scan : string -> res (value * string)) (s : string)
  : res (value * string) :=
  match skip_whitespace s with
  | String "]" r => Ok (PyList [], r)
  | s' => array_items scan (S (String.length s')) [] s'
  end.

Fixpoint drop (n : nat) (s : string) : string :=
  match n, s with
  | S n', String _ t => drop n' t
  | _, _ => s
  end.

  (** [scan_once]: one JSON value at the head of [s].  Entering an object
      or an array takes one of the [depth] levels of nesting left. *)
Fixpoint scan_once (depth : nat) (s : string) : res (value * string) :=
  match s with
  | EmptyString => Raise JSONDecodeError
  | String c t =>
      if (c =? dquote)%char then
        match parse_string t with
        | Ok (str, r) => Ok (PyStr str, r)
        | Raise e => Raise e
        end
      else if (c =? "{")%char then
        match depth with
        | O => Raise RecursionError
        | S d => parse_object (scan_once d) t
        end
      else if (c =? "[")%char then
        match depth with
        | O => Raise RecursionError
        | S d => parse_array (scan_once d) t
        end
      else if String.prefix "null" s then Ok (PyNone, drop 4 s)
      else if String.prefix "true" s then Ok (PyBool true, drop 4 s)
      else if String.prefix "false" s then Ok (PyBool false, drop 5 s)
      else if String.prefix "NaN" s then Ok (PyFloat S754_nan, drop 3 s)
      else if String.prefix "Infinity" s then
        Ok (PyFloat (S754_infinity false), drop 8 s)
      else if String.prefix "-Infinity" s then
        Ok (PyFloat (S754_infinity true), drop 9 s)
      else
        match match_number s with
        | Some (n, r) =>
            match number_value n with
            | Ok v => Ok (v, r)
            | Raise e => Raise e
            end
        | None => Raise JSONDecodeError
        end
  end.

  (** Levels of nesting the interpreter allows.  The value is the default
      of [sys.getrecursionlimit()]; the properties below do not depend on
      it. *)
Definition recursion_limit : nat := 1000.

Definition raw_decode (s : string) : res (value * string) :=
  scan_once recursion_limit s.

  (** [JSONDecoder.decode]: one value, whitespace allowed around it and
      nothing else. *)
Definition decode (s : string) : res value :=
  match raw_decode (skip_whitespace s) with
  | Raise e => Raise e
  | Ok (obj, r) =>
      match skip_whitespace r with
      | EmptyString => Ok obj
      | String _ _ => Raise JSONDecodeError
      end
  end.

  (** The byte order mark U+FEFF, which [loads] refuses at the start. *)
Definition bom : string := utf8 65279.

Definition loads (s : string) : res value :=
  if PyStr.startswith bom s then Raise JSONDecodeError else decode s.

End Json.

(** ** Operations on decoded values

    The extractor applies [in], subscription and item assignment to
    whatever the decoder returned; on anything but a [dict] they mean
    something else or raise [TypeError]. *)
Module PyObj.

Fixpoint str_in (needle hay : string) : bool :=
  String.prefix needle hay
  || match hay with
     | String _ t => str_in needle t
     | EmptyString => false
     end.

Definition is_str (k : string) (v : value) : bool :=
  match v with PyStr s => String.eqb s k | _ => false end.

  (** [k in v] for a string [k]. *)
Definition contains (k : string) (v : value) : res bool :=
  match v with
  | PyDict d => Ok (Dict.mem k d)
  | PyList l => Ok (existsb (is_str k) l)
  | PyStr s => Ok (str_in k s)
  | _ => Raise TypeError
  end.

  (** [v[k]] for a string [k]. *)
Definition getitem (v : value) (k : string) : res value :=
  match v with
  | PyDict d =>
      match Dict.get k d with
      | Some x => Ok x
      | None => Raise KeyError
      end
  | _ => Raise TypeError
  end.

  (** [v[k] = x] for a string [k]; the object after the assignment. *)
Definition setitem (v : value) (k : string) (x : value) : res dict :=
  match v with
  | PyDict d => Ok (Dict.set k x d)
  | _ => Raise TypeError
  end.

  (** [v == n] for an integer [n]. *)
Definition eq_int (v : value) (n : Z) : bool :=
  match v with
  | PyInt m => m =? n
  | PyBool b => (if b then 1 else 0) =? n
  | PyFloat f => PyFloat.eq_int f n
  | _ => false
  end.

  (** Whether [hash(v)] succeeds: lists and dicts are unhashable. *)
Definition hashable (v : value) : bool :=
  match v with
  | PyList _ | PyDict _ => false
  | _ => true
  end.

End PyObj.

(** ** The category taxonomy *)

(** [APPOINTMENT_CATEGORIES]: the four codes and their descriptions. *)
Definition APPOINTMENT_CATEGORIES : list (Z * string) :=
  [ (1, "מנהלי - בקשה לטופס 17, סיכום רפואי וכו'");
    (2, "לא לרופא משפחה - חיסונים לנסיעה וכו'");
    (3, "קליני - אבל ניתן לפתור בדרך אחרת");
    (4, "קליני - צריך רופא משפחה") ].

(** Lookup in a dict with integer keys by a key [v] of any type: equal
    numbers of different types are the same key. *)
Fixpoint int_keyed_get {A : Type} (v : value) (table : list (Z * A)) : option A :=
  match table with
  | [] => None
  | (k, a) :: rest => if PyObj.eq_int v k then Some a else int_keyed_get v rest
  end.

(** [category in APPOINTMENT_CATEGORIES]; [TypeError] for an unhashable
    [category]. *)
Definition in_APPOINTMENT_CATEGORIES (category : value) : res bool :=
  if PyObj.hashable category then
    Ok (match int_keyed_get category APPOINTMENT_CATEGORIES with
        | Some _ => true
        | None => false
        end)
  else Raise TypeError.

(** ** Session state, output and the run monad *)

(** A chat message, [{"role": r, "content": c}]. *)
Record Message : Type := { role : string; content : string }.

(** [st.session_state]: the three keys the program keeps there, each
    absent until it is first set. *)
Record session_state : Type := {
  st_messages : option (list Message);
  st_categorization_complete : option bool;
  st_final_category : option (option dict)
}.

(** A session whose three keys are set. *)
Record Session : Type := {
  messages : list Message;
  categorization_complete : bool;
  final_category : option dict
}.

Definition stored (s : Session) : session_state :=
  {| st_messages := Some (messages s);
     st_categorization_complete := Some (categorization_complete s);
     st_final_category := Some (final_category s) |}.

(** The state of a fresh session: no key set. *)
Definition empty_state : session_state :=
  {| st_messages := None;
     st_categorization_complete := None;
     st_final_category := None |}.

(** What a run shows or does towards the outside, in order.  Fixed
    label texts are not repeated: each event names the call and carries
    the part that varies. *)
Inductive event : Type :=
| st_chat_message (role : string)
| st_markdown (html : string)
| st_spinner
| st_error_api (e : exn)
| st_success_found
| st_error_category (category : value)
| st_markdown_result (description colour : string) (reason : value)
| st_info (category : Z)
| st_warning
| print_parse_error (e : exn)
| called_api (request : list Message)
| called_extract (response : string).

Record world : Type := {
  state : session_state;
  log : list event
}.

(** A computation reads and writes the world and returns or raises;
    what it wrote before raising stays written. *)
Definition M (A : Type) : Type := world -> res A * world.

Definition ret {A : Type} (a : A) : M A := fun w => (Ok a, w).

Definition raise {A : Type} (e : exn) : M A := fun w => (Raise e, w).

Definition bind {A B : Type} (m : M A) (k : A -> M B) : M B :=
  fun w =>
    match m w with
    | (Ok a, w') => k a w'
    | (Raise e, w') => (Raise e, w')
    end.

Definition lift {A : Type} (r : res A) : M A := fun w => (r, w).

Notation "x <- m ;; k" := (bind m (fun x => k))
  (at level 61, m at next level, right associativity).
Notation "m ;; k" := (bind m (fun _ => k))
  (at level 61, right associativity).

(** [try: m except C as e: h e], where [catches] tells the classes under
    [C]. *)
Definition try_except {A : Type} (m : M A) (catches : exn -> bool)
    (h : exn -> M A) : M A :=
  fun w =>
    match m w with
    | (Ok a, w') => (Ok a, w')
    | (Raise e, w') => if catches e then h e w' else (Raise e, w')
    end.

Definition emit (e : event) : M unit :=
  fun w => (Ok tt, {| state := state w; log := log w ++ [e] |}).

Definition get_state : M session_state := fun w => (Ok (state w), w).

Definition put_state (s : session_state) : M unit :=
  fun w => (Ok tt, {| state := s; log := log w |}).

(** Reading a key of [st.session_state] that is not set raises. *)
Definition read {A : Type} (field : session_state -> option A) : M A :=
  fun w =>
    match field (state w) with
    | Some a => (Ok a, w)
    | None => (Raise AttributeError, w)
    end.

Definition set_messages (l : list Message) : M unit :=
  s <- get_state ;;
  put_state {| st_messages := Some l;
               st_categorization_complete := st_categorization_complete s;
               st_final_category := st_final_category s |}.

Definition set_categorization_complete (b : bool) : M unit :=
  s <- get_state ;;
  put_state {| st_messages := st_messages s;
               st_categorization_complete := Some b;
               st_final_category := st_final_category s |}.

Definition set_final_category (c : option dict) : M unit :=
  s <- get_state ;;
  put_state {| st_messages := st_messages s;
               st_categorization_complete := st_categorization_complete s;
               st_final_category := Some c |}.

(** [st.session_state.messages.append(m)] *)
Definition append_message (m : Message) : M unit :=
  l <- read st_messages ;;
  set_messages (l ++ [m]).

Fixpoint for_each {A : Type} (l : list A) (f : A -> M unit) : M unit :=
  match l with
  | [] => ret tt
  | a :: l' => f a ;; for_each l' f
  end.

(** [st.rerun()] *)
Definition st_rerun : M unit := raise RerunException.

(** ** The program *)

(** What one execution of the script receives from outside: the text
    submitted in the chat input ([None] when nothing was submitted), whether
    the reset button was clicked, the system prompt read at start-up, and
    the completion service.  [completion request] stands for
    [client.chat.completions.create(..., messages=request, ...)] followed
    by [.choices[0].message.content]: the reply text (which the service may
    leave out), or the exception raised on the way. *)
Record env : Type := {
  chat_input : option string;
  button : bool;
  SYSTEM_PROMPT : string;
  completion : list Message -> res (option string)
}.

(** [initialize_session_state] *)
Definition initialize_session_state : M unit :=
  s <- get_state ;;
  (match st_messages s with
   | None => set_messages []
   | Some _ => ret tt
   end) ;;
  s <- get_state ;;
  (match st_categorization_complete s with
   | None => set_categorization_complete false
   | Some _ => ret tt
   end) ;;
  s <- get_state ;;
  match st_final_category s with
  | None => set_final_category None
  | Some _ => ret tt
  end.

(** [call_openai_api].  The request sent to the service is recorded in
    the log. *)
Definition call_openai_api (E : env) (messages : list Message)
  : M (option string) :=
  let request := {| role := "system"; content := SYSTEM_PROMPT E |} :: messages in
  emit (called_api request) ;;
  try_except
    (lift (completion E request))
    is_Exception
    (fun e => emit (st_error_api e) ;; ret None).

(** Lines 81-83 of [extract_categorization]: the text from the first
    opening brace up to the last closing brace, as Python slices it. *)
Definition candidate_payload (response : string) : string :=
  let start := PyStr.find "{" response in
  let end_ := PyStr.rfind "}" response + 1 in
  PyStr.slice response start end_.

(** Lines 79-101 of [extract_categorization]: the body of the [try]
    block.  It has no effect; it returns the categorization, or [None], or
    raises. *)
Definition extract_categorization_body (response : string) : res (option dict) :=
  if PyStr.contains "{" response && PyStr.contains "}" response then
    let json_str := candidate_payload response in
    let* categorization := Json.loads json_str in
    let* has_category := PyObj.contains "category" categorization in
    if has_category then
      let* category := PyObj.getitem categorization "category" in
      let validate (category : value) : res (option dict) :=
        let* valid := in_APPOINTMENT_CATEGORIES category in
        if negb valid then Ok None
        else
          let* categorization' := PyObj.setitem categorization "category" category in
          Ok (Some categorization') in
      match category with
      | PyStr text =>
          match PyInt.of_str text with
          | Ok n => validate (PyInt n)
          | Raise ValueError => Ok None
          | Raise e => Raise e
          end
      | _ => validate category
      end
    else Ok None
  else Ok None.

(** [extract_categorization].  Each call is recorded in the log, so that
    properties can tell whether the extractor ran. *)
Definition extract_categorization (response : string) : M (option dict) :=
  emit (called_extract response) ;;
  try_except
    (lift (extract_categorization_body response))
    is_Exception
    (fun e => emit (print_parse_error e) ;; ret None).

Definition category_colors : list (Z * string) :=
  [ (1, "blue"); (2, "orange"); (3, "green"); (4, "red") ].

(** [display_final_result] *)
Definition display_final_result (category reason : value) : M unit :=
  emit st_success_found ;;
  valid <- lift (in_APPOINTMENT_CATEGORIES category) ;;
  if negb valid then emit (st_error_category category)
  else
    let category_description :=
      match int_keyed_get category APPOINTMENT_CATEGORIES with
      | Some d => d
      | None => "קטגוריה לא ידועה"
      end in
    let colour :=
      match int_keyed_get category category_colors with
      | Some c => c
      | None => "gray"
      end in
    emit (st_markdown_result category_description colour reason) ;;
    if PyObj.eq_int category 1 then emit (st_info 1)
    else if PyObj.eq_int category 2 then emit (st_info 2)
    else if PyObj.eq_int category 3 then emit (st_info 3)
    else if PyObj.eq_int category 4 then emit (st_info 4)
    else emit st_warning.

(** The text of a chat message as it is rendered, in a right-to-left
    block. *)
Definition rtl (text : string) : string :=
  "<div class=" ++ String Json.dquote ("rtl" ++ String Json.dquote (">" ++ text ++ "</div>")).

(** Truth value of an optional dict: [None] and the empty dict are false. *)
Definition truthy_categorization (c : option dict) : bool :=
  match c with
  | Some d => Dict.truthy d
  | None => false
  end.

(** [d.get(k)], [None] when the key is missing. *)
Definition dict_get (d : dict) (k : string) : value :=
  match Dict.get k d with
  | Some v => v
  | None => PyNone
  end.

(** The parts of [main], from line 165 on, in the order of the source.
    The page set-up before them (lines 149-163) and the sidebar after
    them (lines 223-239) render fixed content and neither read nor write
    the session; they are left out. *)

(** Lines 167-170: the chat history. *)
Definition show_history : M unit :=
  history <- read st_messages ;;
  for_each history (fun message =>
    emit (st_chat_message (role message)) ;;
    emit (st_markdown (rtl (content message)))).

(** Lines 172-177: the final result, once the categorization is
    complete. *)
Definition show_final_result : M unit :=
  complete <- read st_categorization_complete ;;
  final <- read st_final_category ;;
  if complete && truthy_categorization final then
    let result := match final with Some d => PyDict d | None => PyNone end in
    category <- lift (PyObj.getitem result "category") ;;
    reason <- lift (PyObj.getitem result "reason") ;;
    display_final_result category reason
  else ret tt.

(** Lines 212-213 (and 208-209): the reply continues the conversation. *)
Definition continue_conversation (response : string) : M unit :=
  emit (st_markdown (rtl response)) ;;
  append_message {| role := "assistant"; content := response |}.

(** The test of line 196 on a categorization that is not [None]. *)
Definition has_both_fields (c : dict) : bool :=
  Dict.truthy c && Dict.mem "category" c && Dict.mem "reason" c.

(** Lines 193-213: a reply that is not empty. *)
Definition handle_response (response : string) : M unit :=
  categorization <- extract_categorization response ;;
  match categorization with
  | Some c =>
      if has_both_fields c then
        let category := dict_get c "category" in
        valid <- lift (in_APPOINTMENT_CATEGORIES category) ;;
        if valid then
          set_categorization_complete true ;;
          set_final_category (Some c) ;;
          st_rerun
        else continue_conversation response
      else continue_conversation response
  | None => continue_conversation response
  end.

(** Lines 181-213: the chat input and the turn it starts. *)
Definition chat_turn (E : env) : M unit :=
  match chat_input E with
  | Some prompt =>
      if PyStr.truthy prompt then
        append_message {| role := "user"; content := prompt |} ;;
        emit (st_chat_message "user") ;;
        emit (st_markdown (rtl prompt)) ;;
        emit (st_chat_message "assistant") ;;
        emit st_spinner ;;
        history <- read st_messages ;;
        reply <- call_openai_api E history ;;
        match reply with
        | Some response =>
            if PyStr.truthy response then handle_response response
            else ret tt
        | None => ret tt
        end
      else ret tt
  | None => ret tt
  end.

(** Lines 217-220: what a click on the reset button does. *)
Definition reset_session : M unit :=
  set_messages [] ;;
  set_categorization_complete false ;;
  set_final_category None ;;
  st_rerun.

(** [main] *)
Definition main (E : env) : M unit :=
  initialize_session_state ;;
  show_history ;;
  show_final_result ;;
  complete <- read st_categorization_complete ;;
  if negb complete then chat_turn E
  else if button E then reset_session
  else ret tt.

(** One execution of the script on a stored state: the outcome of [main]
    and the world it leaves. *)
Definition run (E : env) (s : session_state) : res unit * world :=
  main E {| state := s; log := [] |}.

(** The stored state after one execution. *)
Definition next_state (E : env) (s : session_state) : session_state :=
  state (snd (run E s)).

(** The states a session can be in: the fresh one, and those that
    executions of the script lead to, whatever the user and the service
    do. *)
Inductive reachable : session_state -> Prop :=
| reachable_fresh : reachable empty_state
| reachable_run (E : env) (s : session_state) :
    reachable s -> reachable (next_state E s).

(** Replaces each apostrophe by a double quote: JSON texts below are
    written with apostrophes around their strings. *)
Fixpoint json_text (s : string) : string :=
  match s with
  | String c t =>
      String (if (c =? "'")%char then Json.dquote else c) (json_text t)
  | EmptyString => EmptyString
  end.

(** ** Notions used in the statements *)

(** The session that [initialize_session_state] makes of a stored state:
    keys that are set keep their value, the others get their initial
    value. *)
Definition initialized (st : session_state) : Session :=
  {| messages := match st_messages st with Some l => l | None => [] end;
     categorization_complete :=
       match st_categorization_complete st with Some b => b | None => false end;
     final_category :=
       match st_final_category st with Some c => c | None => None end |}.

Definition initial_session : Session :=
  {| messages := []; categorization_complete := false; final_category := None |}.

Definition user_message (prompt : string) : Message :=
  {| role := "user"; content := prompt |}.

Definition assistant_message (response : string) : Message :=
  {| role := "assistant"; content := response |}.

(** The request a turn sends: the system prompt, the history, the new
    user message. *)
Definition request_of (E : env) (history : list Message) (prompt : string)
  : list Message :=
  {| role := "system"; content := SYSTEM_PROMPT E |}
    :: history ++ [user_message prompt].

(** What [show_history] shows for a history. *)
Definition history_events (l : list Message) : list event :=
  flat_map (fun m => [st_chat_message (role m); st_markdown (rtl (content m))]) l.

(** What a turn shows before the service is called. *)
Definition turn_events (E : env) (history : list Message) (prompt : string)
  : list event :=
  [ st_chat_message "user"; st_markdown (rtl prompt);
    st_chat_message "assistant"; st_spinner;
    called_api (request_of E history prompt) ].

(** The same environment with another completion service. *)
Definition with_completion (E : env) (f : list Message -> res (option string))
  : env :=
  {| chat_input := chat_input E; button := button E;
     SYSTEM_PROMPT := SYSTEM_PROMPT E; completion := f |}.

(** The same environment with nothing submitted in the chat input. *)
Definition without_input (E : env) : env :=
  {| chat_input := None; button := button E;
     SYSTEM_PROMPT := SYSTEM_PROMPT E; completion := completion E |}.

(** A value equal to one of the four category codes. *)
Definition valid_code (v : value) : Prop :=
  exists k : Z, 1 <= k <= 4 /\ PyObj.eq_int v k = true.

(** [payload] is the part of [response] from its first opening brace to
    its last closing brace, both included. *)
Definition spans_first_to_last (response payload : string) : Prop :=
  exists pre mid post : string,
    response = pre ++ payload ++ post
    /\ payload = String "{" (mid ++ String "}" EmptyString)
    /\ PyStr.contains "{" pre = false
    /\ PyStr.contains "}" post = false.

(** The category after the conversion of a textual one. *)
Inductive converts_to : value -> value -> Prop :=
| converts_int (n : Z) : converts_to (PyInt n) (PyInt n)
| converts_float (f : spec_float) : converts_to (PyFloat f) (PyFloat f)
| converts_text (text : string) (n : Z) :
    PyInt.of_str text = Ok n -> converts_to (PyStr text) (PyInt n).

(** The four ways in which a reply with a candidate payload carries no
    categorization. *)
Inductive no_categorization (response : string) : Prop :=
| undecodable (e : exn) :
    Json.loads (candidate_payload response) = Raise e ->
    no_categorization response
| no_category_field (decoded : value) :
    Json.loads (candidate_payload response) = Ok decoded ->
    PyObj.contains "category" decoded = Ok false ->
    no_categorization response
| text_not_a_number (decoded : value) (text : string) (e : exn) :
    Json.loads (candidate_payload response) = Ok decoded ->
    PyObj.getitem decoded "category" = Ok (PyStr text) ->
    PyInt.of_str text = Raise e ->
    no_categorization response
| number_not_a_code (decoded category number : value) :
    Json.loads (candidate_payload response) = Ok decoded ->
    PyObj.getitem decoded "category" = Ok category ->
    converts_to category number ->
    ~ valid_code number ->
    no_categorization response.

(** The session with one more message. *)
Definition with_message (s : Session) (m : Message) : Session :=
  {| messages := messages s ++ [m];
     categorization_complete := categorization_complete s;
     final_category := final_category s |}.

(** The session once the categorization [c] is accepted. *)
Definition completed_with (s : Session) (c : dict) : Session :=
  {| messages := messages s;
     categorization_complete := true;
     final_category := Some c |}.

(** The world after a call of the extractor that printed [printed]. *)
Definition after_extract (response : string) (printed : list event) (w : world)
  : world :=
  {| state := state w; log := log w ++ called_extract response :: printed |}.

(** The part of [main] after the displays. *)
Definition after_displays (E : env) (s : Session) : M unit :=
  if negb (categorization_complete s) then chat_turn E
  else if button E then reset_session
  else ret tt.

(** A computation that leaves [st.session_state] as it found it. *)
Definition keeps_state {A : Type} (m : M A) : Prop :=
  forall w, state (snd (m w)) = state w.

(** The exceptions of the decoder. *)
Definition decoder_error (e : exn) : Prop :=
  e = JSONDecodeError \/ e = RecursionError \/ e = ValueError.

(** What one execution can make of the session. *)
Inductive run_effect (s : Session) : Session -> Prop :=
| effect_none : run_effect s s
| effect_reset :
    categorization_complete s = true -> run_effect s initial_session
| effect_user (prompt : string) :
    categorization_complete s = false ->
    run_effect s (with_message s (user_message prompt))
| effect_continue (prompt response : string) :
    categorization_complete s = false ->
    run_effect s (with_message (with_message s (user_message prompt))
                    (assistant_message response))
| effect_complete (prompt : string) (c : dict) :
    categorization_complete s = false ->
    has_both_fields c = true ->
    valid_code (dict_get c "category") ->
    run_effect s (completed_with (with_message s (user_message prompt)) c).

(** The result of a complete session: a dict with a category equal to
    one of the four codes and with a reason. *)
Definition result_valid (st : session_state) : Prop :=
  st_categorization_complete st = Some true ->
  exists (d : dict) (category reason : value),
    st_final_category st = Some (Some d)
    /\ Dict.get "category" d = Some category
    /\ valid_code category
    /\ Dict.get "reason" d = Some reason.

(** The same, the reason being moreover a text that is not empty. *)
Definition result_valid_with_reason (st : session_state) : Prop :=
  st_categorization_complete st = Some true ->
  exists (d : dict) (category : value) (reason : string),
    st_final_category st = Some (Some d)
    /\ Dict.get "category" d = Some category
    /\ valid_code category
    /\ Dict.get "reason" d = Some (PyStr reason)
    /\ reason <> EmptyString.

(** An environment whose service gives the same answer to every request. *)
Definition scripted (prompt : option string) (click : bool)
    (answer : res (option string)) : env :=
  {| chat_input := prompt; button := click;
     SYSTEM_PROMPT := "triage policy"; completion := fun _ => answer |}.

(** Scenario 1 of the specification: a reply that ends the session. *)
Definition vaccine_reply : string :=
  json_text "I think you need a travel vaccine, let me check more... {'category': 2, 'reason': 'travel vaccination request'}".

Definition vaccine_state : session_state :=
  next_state (scripted (Some "I am travelling next month") false
                (Ok (Some vaccine_reply))) empty_state.

(** A reply whose reason is the empty text. *)
Definition empty_reason_reply : string :=
  json_text "{'category': 1, 'reason': ''}".

Definition empty_reason_state : session_state :=
  next_state (scripted (Some "I need form 17") false
                (Ok (Some empty_reason_reply))) empty_state.

(** ** Notions used in the further properties *)

(** The category the extractor validates, given the decoded one: a text
    is replaced by the number it converts to, anything else is kept. *)
Inductive normalizes_to : value -> value -> Prop :=
| normalizes_text (text : string) (n : Z) :
    PyInt.of_str text = Ok n -> normalizes_to (PyStr text) (PyInt n)
| normalizes_other (v : value) :
    (forall text, v <> PyStr text) -> normalizes_to v v.

(** A reply with a payload whose category is a text that converts. *)
Definition text_category_reply : string :=
  json_text "It is settled. {'category': ' 3 ', 'reason': 'cough', 'urgent': false}".

(** A reply whose category is a JSON array. *)
Definition array_category_reply : string :=
  json_text "{'category': [4], 'reason': 'needs the doctor'}".

(** A history made of turns: each is a message of the user, followed or
    not by a reply of the assistant. *)
Inductive turns : list Message -> Prop :=
| turns_none : turns []
| turns_unanswered (l : list Message) (prompt : string) :
    turns l -> turns (l ++ [user_message prompt])
| turns_answered (l : list Message) (prompt response : string) :
    turns l -> turns (l ++ [user_message prompt; assistant_message response]).


(** The suggestion [display_final_result] ends with (lines 137-146). *)
Definition suggestion (category : value) : event :=
  if PyObj.eq_int category 1 then st_info 1
  else if PyObj.eq_int category 2 then st_info 2
  else if PyObj.eq_int category 3 then st_info 3
  else if PyObj.eq_int category 4 then st_info 4
  else st_warning.

(** The events [display_final_result] produces. *)
Definition is_display (e : event) : bool :=
  match e with
  | st_success_found | st_error_category _ | st_markdown_result _ _ _
  | st_info _ | st_warning => true
  | _ => false
  end.

(** One execution of [main], case by case: from the session [s] that
    [initialize_session_state] leaves, the outcome, the session after
    and what the log gets after the history is shown. *)
Inductive execution (E : env) (s : Session)
  : res unit -> Session -> list event -> Prop :=
| display_raises (e : exn) (shown : list event) :
    categorization_complete s = true ->
    forallb is_display shown = true ->
    fst (show_final_result
           {| state := stored s; log := history_events (messages s) |}) = Raise e ->
    execution E s (Raise e) s shown
| result_shown (shown : list event) :
    categorization_complete s = true ->
    forallb is_display shown = true ->
    button E = false ->
    execution E s (Ok tt) s shown
| session_reset (shown : list event) :
    categorization_complete s = true ->
    forallb is_display shown = true ->
    button E = true ->
    execution E s (Raise RerunException) initial_session shown
| nothing_submitted :
    categorization_complete s = false ->
    chat_input E = None \/ chat_input E = Some EmptyString ->
    execution E s (Ok tt) s []
| no_reply (prompt : string) :
    categorization_complete s = false ->
    chat_input E = Some prompt -> prompt <> EmptyString ->
    completion E (request_of E (messages s) prompt) = Ok None
    \/ completion E (request_of E (messages s) prompt) = Ok (Some EmptyString) ->
    execution E s (Ok tt) (with_message s (user_message prompt))
      (turn_events E (messages s) prompt)
| call_failed (prompt : string) (e : exn) :
    categorization_complete s = false ->
    chat_input E = Some prompt -> prompt <> EmptyString ->
    completion E (request_of E (messages s) prompt) = Raise e ->
    is_Exception e = true ->
    execution E s (Ok tt) (with_message s (user_message prompt))
      (turn_events E (messages s) prompt ++ [st_error_api e])
| call_interrupted (prompt : string) (e : exn) :
    categorization_complete s = false ->
    chat_input E = Some prompt -> prompt <> EmptyString ->
    completion E (request_of E (messages s) prompt) = Raise e ->
    is_Exception e = false ->
    execution E s (Raise e) (with_message s (user_message prompt))
      (turn_events E (messages s) prompt)
| session_completed (prompt response : string) (c : dict) :
    categorization_complete s = false ->
    chat_input E = Some prompt -> prompt <> EmptyString ->
    completion E (request_of E (messages s) prompt) = Ok (Some response) ->
    response <> EmptyString ->
    extract_categorization_body response = Ok (Some c) ->
    Dict.mem "reason" c = true ->
    execution E s (Raise RerunException)
      (completed_with (with_message s (user_message prompt)) c)
      (turn_events E (messages s) prompt ++ [called_extract response])
| conversation_continued (prompt response : string) (printed : list event) :
    categorization_complete s = false ->
    chat_input E = Some prompt -> prompt <> EmptyString ->
    completion E (request_of E (messages s) prompt) = Ok (Some response) ->
    response <> EmptyString ->
    match extract_categorization_body response with
    | Ok (Some c) => Dict.mem "reason" c = false
    | _ => True
    end ->
    printed = [] \/ (exists e, printed = [print_parse_error e]) ->
    execution E s (Ok tt)
      (with_message (with_message s (user_message prompt)) (assistant_message response))
      (turn_events E (messages s) prompt
         ++ called_extract response :: printed ++ [st_markdown (rtl response)]).

(** The history a session has, and how it ends once complete. *)
Definition history_invariant (s : Session) : Prop :=
  turns (messages s)
  /\ (categorization_complete s = true ->
      exists l prompt, messages s = (l ++ [user_message prompt])%list).

(** * Properties *)

(** ** The run monad *)

Lemma bind_Ok {A B : Type} (m : M A) (k : A -> M B) (w w' : world) (a : A) :
  m w = (Ok a, w') -> bind m k w = k a w'.
Proof. intros H. unfold bind. now rewrite H. Qed.

Lemma bind_Raise {A B : Type} (m : M A) (k : A -> M B) (w w' : world) (e : exn) :
  m w = (Raise e, w') -> bind m k w = (Raise e, w').
Proof. intros H. unfold bind. now rewrite H. Qed.

Lemma keeps_ret {A : Type} (a : A) : keeps_state (ret a).
Proof. now intros w. Qed.

Lemma keeps_raise {A : Type} (e : exn) : keeps_state (@raise A e).
Proof. now intros w. Qed.

Lemma keeps_lift {A : Type} (r : res A) : keeps_state (lift r).
Proof. now intros w. Qed.

Lemma keeps_emit (e : event) : keeps_state (emit e).
Proof. now intros w. Qed.

Lemma keeps_read {A : Type} (field : session_state -> option A) :
  keeps_state (read field).
Proof. intros w. unfold read. now destruct (field (state w)). Qed.

Lemma keeps_bind {A B : Type} (m : M A) (k : A -> M B) :
  keeps_state m -> (forall a, keeps_state (k a)) -> keeps_state (bind m k).
Proof.
  intros Hm Hk w. unfold bind. specialize (Hm w).
  destruct (m w) as [[a | e] w']; simpl in *.
  - now rewrite Hk.
  - assumption.
Qed.

Lemma keeps_try_except {A : Type} (m : M A) (catches : exn -> bool)
    (h : exn -> M A) :
  keeps_state m -> (forall e, keeps_state (h e)) ->
  keeps_state (try_except m catches h).
Proof.
  intros Hm Hh w. unfold try_except. specialize (Hm w).
  destruct (m w) as [[a | e] w']; simpl in *.
  - assumption.
  - destruct (catches e); simpl; [now rewrite Hh | assumption].
Qed.

Lemma keeps_for_each {A : Type} (l : list A) (f : A -> M unit) :
  (forall a, keeps_state (f a)) -> keeps_state (for_each l f).
Proof.
  intros Hf. induction l as [| a l IH]; simpl.
  - apply keeps_ret.
  - apply keeps_bind; [apply Hf | intros _; exact IH].
Qed.

Ltac keeps :=
  repeat first
    [ progress intros
    | apply keeps_bind | apply keeps_try_except | apply keeps_for_each
    | apply keeps_ret | apply keeps_raise | apply keeps_lift
    | apply keeps_emit | apply keeps_read
    | match goal with
      | |- keeps_state (if ?b then _ else _) => destruct b
      | |- keeps_state (match ?x with _ => _ end) => destruct x
      end ].

Lemma keeps_call_openai_api (E : env) (l : list Message) :
  keeps_state (call_openai_api E l).
Proof. unfold call_openai_api. keeps. Qed.

Lemma keeps_extract_categorization (response : string) :
  keeps_state (extract_categorization response).
Proof. unfold extract_categorization. keeps. Qed.

Lemma keeps_display_final_result (category reason : value) :
  keeps_state (display_final_result category reason).
Proof. unfold display_final_result. keeps. Qed.

Lemma keeps_show_history : keeps_state show_history.
Proof. unfold show_history. keeps. Qed.

Lemma keeps_show_final_result : keeps_state show_final_result.
Proof.
  unfold show_final_result. keeps; apply keeps_display_final_result.
Qed.

(** ** Searching and slicing *)
Module PyStrFacts.
Import PyStr.

#[local] Arguments Z.add : simpl never.
#[local] Arguments Z.of_nat : simpl never.

Lemma length_append (a b : string) :
  String.length (a ++ b) = (String.length a + String.length b)%nat.
Proof. induction a as [| c a IH]; simpl; [reflexivity | now rewrite IH]. Qed.

Lemma append_assoc (a b c : string) : (a ++ b) ++ c = a ++ b ++ c.
Proof. induction a as [| x a IH]; simpl; [reflexivity | now rewrite IH]. Qed.

Lemma substring_zero (n : nat) (s : string) : substring n 0 s = EmptyString.
Proof.
  revert n. induction s as [| c s IH]; intros [| n]; simpl; auto.
Qed.

Lemma substring_head (b c : string) :
  substring 0 (String.length b) (b ++ c) = b.
Proof.
  induction b as [| x b IH]; simpl.
  - apply substring_zero.
  - now rewrite IH.
Qed.

Lemma substring_middle (a b c : string) :
  substring (String.length a) (String.length b) (a ++ b ++ c) = b.
Proof.
  induction a as [| x a IH]; simpl; [apply substring_head | exact IH].
Qed.

Lemma find_bounds (c : ascii) (s : string) : -1 <= find c s < len s.
Proof.
  unfold len. induction s as [| a s IH]; cbn [find String.length]; cbv zeta.
  - lia.
  - destruct (Ascii.eqb a c); [lia |].
    destruct (Z.ltb_spec (find c s) 0); lia.
Qed.

Lemma rfind_bounds (c : ascii) (s : string) : -1 <= rfind c s < len s.
Proof.
  unfold len. induction s as [| a s IH]; cbn [rfind String.length]; cbv zeta.
  - lia.
  - destruct (Z.leb_spec 0 (rfind c s)); [lia |].
    destruct (Ascii.eqb a c); lia.
Qed.

(** The first occurrence splits the text; nothing before it matches. *)
Lemma find_split (c : ascii) (s : string) :
  contains c s = true ->
  exists pre post,
    s = pre ++ String c post /\ contains c pre = false /\ find c s = len pre.
Proof.
  unfold len. induction s as [| a s IH]; simpl; [discriminate |].
  destruct (Ascii.eqb_spec a c) as [-> | Hac]; simpl.
  - intros _. exists EmptyString, s. auto.
  - intros H. destruct (IH H) as (pre & post & -> & Hpre & Hfind).
    exists (String a pre), post. simpl.
    destruct (Ascii.eqb_spec a c); [contradiction |]. simpl.
    rewrite Hfind. destruct (Z.ltb_spec (Z.of_nat (String.length pre)) 0); [lia |].
    repeat split; [assumption | lia].
Qed.

(** The last occurrence splits the text; nothing after it matches. *)
Lemma rfind_split (c : ascii) (s : string) :
  contains c s = true ->
  exists pre post,
    s = pre ++ String c post /\ contains c post = false /\ rfind c s = len pre.
Proof.
  unfold len. induction s as [| a s IH]; simpl; [discriminate |].
  destruct (contains c s) eqn:Hs.
  - intros _. destruct (IH eq_refl) as (pre & post & -> & Hpost & Hr).
    exists (String a pre), post. simpl. rewrite Hr.
    destruct (Z.leb_spec 0 (Z.of_nat (String.length pre))); [| lia].
    repeat split; [assumption | lia].
  - rewrite orb_false_r. intros Hac.
    assert (Hr : rfind c s = -1).
    { clear IH Hac. induction s as [| b s IH]; simpl in *; [reflexivity |].
      apply orb_false_elim in Hs as [Hb Hs]. rewrite (IH Hs), Hb. reflexivity. }
    rewrite Hr. simpl. rewrite Hac.
    apply Ascii.eqb_eq in Hac as ->.
    exists EmptyString, s. auto.
Qed.

(** Two splittings of one text: the longer prefix extends the shorter. *)
Lemma append_eq_append (a b c d : string) :
  a ++ b = c ++ d -> (String.length a < String.length c)%nat ->
  exists m, c = a ++ m /\ b = m ++ d /\ m <> EmptyString.
Proof.
  revert c. induction a as [| x a IH]; intros c H Hlen; simpl in *.
  - exists c. repeat split; [assumption |]. destruct c; simpl in *; [lia | discriminate].
  - destruct c as [| y c]; simpl in *; [lia |].
    injection H as -> H. destruct (IH c H ltac:(lia)) as (m & -> & -> & Hm).
    exists m. auto.
Qed.

Lemma slice_middle (a b c : string) :
  slice (a ++ b ++ c) (len a) (len a + len b) = b.
Proof.
  unfold slice, clip, len. rewrite !length_append.
  destruct (Z.ltb_spec (Z.of_nat (String.length a)) 0); [lia |].
  destruct (Z.ltb_spec (Z.of_nat (String.length a) + Z.of_nat (String.length b)) 0);
    [lia |].
  replace (Z.to_nat (Z.min (Z.of_nat (String.length a)) _)) with (String.length a) by lia.
  replace (Z.to_nat (_ - _)) with (String.length b) by lia.
  apply substring_middle.
Qed.

Lemma slice_crossed (s : string) (i j : Z) :
  0 <= j <= i -> slice s i j = EmptyString.
Proof.
  intros H. unfold slice, clip.
  destruct (Z.ltb_spec i 0); [lia |]. destruct (Z.ltb_spec j 0); [lia |].
  replace (Z.to_nat (_ - _)) with 0%nat by lia. apply substring_zero.
Qed.

End PyStrFacts.

(** ** What the decoder and the conversion can raise *)
Module DecoderFacts.
Import Json.

Ltac break_match :=
  match goal with
  | H : context [match ?x with _ => _ end] |- _ => destruct x eqn:?
  | H : context [if ?b then _ else _] |- _ => destruct b eqn:?
  end.

Ltac raised :=
  repeat first
    [ discriminate
    | match goal with
      | H : Raise _ = Raise _ |- _ => injection H as <-
      | H : (_, _) = (_, _) |- _ => injection H as <- <-
      end
    | break_match ].

Lemma scanstring_raises (fuel : nat) (s : string) (e : exn) :
  scanstring fuel s = Raise e -> e = JSONDecodeError.
Proof.
  revert s. induction fuel as [| fuel IH]; intros s H; cbn [scanstring] in H.
  - now injection H as <-.
  - raised; eauto.
Qed.

Lemma parse_string_raises (s : string) (e : exn) :
  parse_string s = Raise e -> decoder_error e.
Proof. intros H. left. eapply scanstring_raises, H. Qed.

Lemma number_value_raises (n : numeral) (e : exn) :
  number_value n = Raise e -> decoder_error e.
Proof. unfold number_value. intros H. right. right. raised; reflexivity. Qed.

Section Scan.
Variable scan : string -> res (value * string).
Hypothesis scan_raises : forall s e, scan s = Raise e -> decoder_error e.

Lemma object_members_raises (fuel : nat) (acc : dict) (s : string) (e : exn) :
    object_members scan fuel acc s = Raise e -> decoder_error e.
Proof using scan_raises.
    revert acc s. induction fuel as [| fuel IH]; intros acc s H;
      cbn [object_members] in H.
    - injection H as <-. now left.
    - raised; eauto using parse_string_raises; now left.
Qed.

Lemma array_items_raises (fuel : nat) (acc : list value) (s : string) (e : exn) :
    array_items scan fuel acc s = Raise e -> decoder_error e.
Proof using scan_raises.
    revert acc s. induction fuel as [| fuel IH]; intros acc s H;
      cbn [array_items] in H.
    - injection H as <-. now left.
    - raised; eauto; now left.
Qed.
End Scan.

Lemma scan_once_raises (depth : nat) (s : string) (e : exn) :
  scan_once depth s = Raise e -> decoder_error e.
Proof.
  revert s e. induction depth as [| depth IH]; intros s e H;
    destruct s as [| c t]; cbn [scan_once] in H;
    try (injection H as <-; now left); unfold parse_object, parse_array in H;
    raised;
    eauto using parse_string_raises, number_value_raises,
      object_members_raises, array_items_raises;
    try (now left); try (right; now left).
Qed.

Lemma loads_raises (s : string) (e : exn) :
  loads s = Raise e -> decoder_error e.
Proof.
  unfold loads, decode, raw_decode. intros H.
  destruct (PyStr.startswith bom s); [injection H as <-; now left |].
  destruct (scan_once recursion_limit (skip_whitespace s))
    as [[obj r] | e'] eqn:Hs.
  - destruct (skip_whitespace r); [discriminate H | injection H as <-; now left].
  - injection H as <-. eapply scan_once_raises, Hs.
Qed.

Lemma decoder_error_is_Exception (e : exn) :
  decoder_error e -> is_Exception e = true.
Proof. now intros [-> | [-> | ->]]. Qed.

Lemma of_str_raises (s : string) (e : exn) :
  PyInt.of_str s = Raise e -> e = ValueError.
Proof. unfold PyInt.of_str. intros H. raised; reflexivity. Qed.

End DecoderFacts.

(** ** The completion extractor *)
Module ExtractorFacts.
Import DecoderFacts.

#[local] Opaque Json.loads PyInt.of_str.
#[local] Arguments candidate_payload : simpl never.
#[local] Arguments in_APPOINTMENT_CATEGORIES : simpl never.
#[local] Arguments PyObj.setitem : simpl never.

Lemma contains_raises (k : string) (v : value) (e : exn) :
  PyObj.contains k v = Raise e -> e = TypeError.
Proof. destruct v; simpl; intros H; now inversion H. Qed.

Lemma getitem_raises (v : value) (k : string) (e : exn) :
  PyObj.getitem v k = Raise e -> is_Exception e = true.
Proof.
  destruct v; simpl; try (intros H; now inversion H).
  destruct (Dict.get k d); intros H; now inversion H.
Qed.

Lemma setitem_raises (v : value) (k : string) (x : value) (e : exn) :
  PyObj.setitem v k x = Raise e -> e = TypeError.
Proof. destruct v; simpl; intros H; now inversion H. Qed.

Lemma in_categories_raises (v : value) (e : exn) :
  in_APPOINTMENT_CATEGORIES v = Raise e -> e = TypeError.
Proof.
  unfold in_APPOINTMENT_CATEGORIES.
  destruct (PyObj.hashable v); intros H; now inversion H.
Qed.

(** Membership in the taxonomy is equality with one of the four codes. *)
Lemma in_categories_true (v : value) :
  in_APPOINTMENT_CATEGORIES v = Ok true <-> PyObj.hashable v = true /\ valid_code v.
Proof.
  unfold in_APPOINTMENT_CATEGORIES, valid_code. cbn [APPOINTMENT_CATEGORIES int_keyed_get].
  destruct (PyObj.hashable v); [| split; [discriminate | intros [? _]; discriminate]].
  split.
  - intros H. split; [reflexivity |].
    destruct (PyObj.eq_int v 1) eqn:H1; [exists 1; split; [lia | assumption] |].
    destruct (PyObj.eq_int v 2) eqn:H2; [exists 2; split; [lia | assumption] |].
    destruct (PyObj.eq_int v 3) eqn:H3; [exists 3; split; [lia | assumption] |].
    destruct (PyObj.eq_int v 4) eqn:H4; [exists 4; split; [lia | assumption] |].
    discriminate.
  - intros [_ (k & Hk & Heq)].
    assert (Hcases : k = 1 \/ k = 2 \/ k = 3 \/ k = 4) by lia.
    destruct Hcases as [-> | [-> | [-> | ->]]];
      repeat (rewrite Heq; reflexivity) ||
      (match goal with |- context [PyObj.eq_int v ?n] =>
         destruct (PyObj.eq_int v n); [reflexivity |] end).
Qed.

Lemma dict_get_set (k : string) (v : value) (d : dict) :
  Dict.get k (Dict.set k v d) = Some v.
Proof.
  induction d as [| [k' v'] d IH]; simpl.
  - now rewrite String.eqb_refl.
  - destruct (String.eqb k' k) eqn:E; simpl; rewrite E; [reflexivity | exact IH].
Qed.

Lemma dict_get_set_other (k k' : string) (v : value) (d : dict) :
  k <> k' -> Dict.get k' (Dict.set k v d) = Dict.get k' d.
Proof.
  intros Hk. induction d as [| [k0 v0] d IH]; simpl.
  - destruct (String.eqb_spec k k'); [contradiction | reflexivity].
  - destruct (String.eqb_spec k0 k) as [-> | Hk0]; simpl.
    + destruct (String.eqb_spec k k'); [contradiction | reflexivity].
    + destruct (String.eqb k0 k'); [reflexivity | exact IH].
Qed.

(** The extractor is its [try] block with the handler around it. *)
Lemma extract_categorization_spec (response : string) (w : world) :
  extract_categorization response w =
  match extract_categorization_body response with
  | Ok r => (Ok r, after_extract response [] w)
  | Raise e =>
      if is_Exception e
      then (Ok None, after_extract response [print_parse_error e] w)
      else (Raise e, after_extract response [] w)
  end.
Proof.
  unfold extract_categorization, after_extract.
  cbv [bind try_except emit lift ret]. cbn [state log].
  destruct (extract_categorization_body response) as [r | e]; [reflexivity |].
  destruct (is_Exception e); [| reflexivity].
  cbn [state log]. now rewrite <- app_assoc.
Qed.

(** What the check of lines 97-101 makes of a category. *)
Lemma validate_cases (decoded c : value) (r : res (option dict)) :
  (let* valid := in_APPOINTMENT_CATEGORIES c in
   if negb valid then Ok None
   else let* d := PyObj.setitem decoded "category" c in Ok (Some d)) = r ->
  (r = Ok None /\ ~ (PyObj.hashable c = true /\ valid_code c))
  \/ (r = Raise TypeError)
  \/ (exists d, decoded = PyDict d /\ valid_code c
                /\ r = Ok (Some (Dict.set "category" c d))).
Proof.
  intros <-. destruct (in_APPOINTMENT_CATEGORIES c) as [[|] | e] eqn:Hin; cbn.
  - apply in_categories_true in Hin as [_ Hv].
    destruct decoded; cbn; auto. right. right. eauto.
  - left. split; [reflexivity |]. intros H. apply in_categories_true in H. congruence.
  - right. left. now rewrite (in_categories_raises _ _ Hin).
Qed.

(** Whatever the [try] block raises derives from [Exception]. *)
Lemma body_raises (response : string) (e : exn) :
  extract_categorization_body response = Raise e -> is_Exception e = true.
Proof.
  unfold extract_categorization_body.
  destruct (PyStr.contains "{" response && PyStr.contains "}" response);
    [| discriminate].
  destruct (Json.loads (candidate_payload response)) as [decoded | e'] eqn:Hl; cbn.
  2:{ intros H; injection H as <-.
      exact (decoder_error_is_Exception _ (loads_raises _ _ Hl)). }
  destruct (PyObj.contains "category" decoded) as [[|] | e'] eqn:Hc; cbn;
    [| discriminate | intros H; injection H as <-; now rewrite (contains_raises _ _ _ Hc)].
  destruct (PyObj.getitem decoded "category") as [category | e'] eqn:Hg; cbn.
  2:{ intros H; injection H as <-. exact (getitem_raises _ _ _ Hg). }
  assert (Hv : forall c r,
    (let* valid := in_APPOINTMENT_CATEGORIES c in
     if negb valid then Ok None
     else let* d := PyObj.setitem decoded "category" c in Ok (Some d)) = r ->
    r = Raise e -> is_Exception e = true).
  { intros c r Hr ->. apply validate_cases in Hr as [[Hr _] | [Hr | (d & _ & _ & Hr)]];
      try discriminate. now injection Hr as ->. }
  destruct category as [| b | n | f | text | l | d]; try (intros H; exact (Hv _ _ eq_refl H)).
  destruct (PyInt.of_str text) as [n | e'] eqn:Hi; [intros H; exact (Hv _ _ eq_refl H) |].
  rewrite (of_str_raises _ _ Hi). discriminate.
Qed.

(** An accepted categorization is the decoded dict, with a category
    equal to one of the four codes. *)
Lemma body_accepts (response : string) (c : dict) :
  extract_categorization_body response = Ok (Some c) ->
  exists (d : dict) (category : value),
    Json.loads (candidate_payload response) = Ok (PyDict d)
    /\ c = Dict.set "category" category d
    /\ valid_code category.
Proof.
  unfold extract_categorization_body.
  destruct (PyStr.contains "{" response && PyStr.contains "}" response);
    [| discriminate].
  destruct (Json.loads (candidate_payload response)) as [decoded | e'] eqn:Hl; cbn;
    [| discriminate].
  destruct (PyObj.contains "category" decoded) as [[|] | e'] eqn:Hc; cbn;
    try discriminate.
  destruct (PyObj.getitem decoded "category") as [category | e'] eqn:Hg; cbn;
    [| discriminate].
  assert (Hv : forall v r,
    (let* valid := in_APPOINTMENT_CATEGORIES v in
     if negb valid then Ok None
     else let* d := PyObj.setitem decoded "category" v in Ok (Some d)) = r ->
    r = Ok (Some c) ->
    exists d category, Ok decoded = Ok (PyDict d)
      /\ c = Dict.set "category" category d /\ valid_code category).
  { intros v r Hr ->. apply validate_cases in Hr as [[Hr _] | [Hr | (d & -> & Hvc & Hr)]];
      try discriminate. injection Hr as ->. eauto. }
  destruct category as [| b | n | f | text | l | d]; try (intros H; exact (Hv _ _ eq_refl H)).
  destruct (PyInt.of_str text) as [n | e'] eqn:Hi; [intros H; exact (Hv _ _ eq_refl H) |].
  rewrite (of_str_raises _ _ Hi). discriminate.
Qed.

End ExtractorFacts.

(** ** The dialogue controller *)
Module ControllerFacts.
Import ExtractorFacts.

#[local] Opaque Json.loads PyInt.of_str.
#[local] Arguments candidate_payload : simpl never.
#[local] Arguments in_APPOINTMENT_CATEGORIES : simpl never.
#[local] Arguments extract_categorization_body : simpl never.

Lemma initialize_session_state_spec (st : session_state) (l : list event) :
  initialize_session_state {| state := st; log := l |}
  = (Ok tt, {| state := stored (initialized st); log := l |}).
Proof. destruct st as [[m |] [c |] [f |]]; reflexivity. Qed.

Lemma show_messages_spec (history : list Message) (st : session_state)
    (l : list event) :
  for_each history (fun message =>
    emit (st_chat_message (role message)) ;;
    emit (st_markdown (rtl (content message)))) {| state := st; log := l |}
  = (Ok tt, {| state := st; log := (l ++ history_events history)%list |}).
Proof.
  revert l. induction history as [| m history IH]; intros l; cbn [for_each history_events flat_map].
  - now rewrite app_nil_r.
  - cbv [bind emit]. cbn [state log]. rewrite IH. now rewrite <- !app_assoc.
Qed.

Lemma show_history_spec (s : Session) (l : list event) :
  show_history {| state := stored s; log := l |}
  = (Ok tt, {| state := stored s; log := (l ++ history_events (messages s))%list |}).
Proof.
  unfold show_history. cbv [bind read]. cbn [state stored st_messages].
  apply show_messages_spec.
Qed.

Lemma show_final_result_not_complete (s : Session) (l : list event) :
  categorization_complete s = false ->
  show_final_result {| state := stored s; log := l |}
  = (Ok tt, {| state := stored s; log := l |}).
Proof.
  intros H. unfold show_final_result. cbv [bind read].
  cbn [state stored st_categorization_complete st_final_category].
  now rewrite H.
Qed.

Lemma show_final_result_state (s : Session) (l : list event) :
  exists r l',
    show_final_result {| state := stored s; log := l |}
    = (r, {| state := stored s; log := l' |}).
Proof.
  pose proof (keeps_show_final_result {| state := stored s; log := l |}) as H.
  destruct (show_final_result _) as [r [st' l']]. cbn in H. subst st'. eauto.
Qed.

(** [main] shows the history and the result, which leaves the session as
    [initialize_session_state] made it, and then goes on by the flag. *)
Lemma main_spec (E : env) (st : session_state) (l : list event) :
  let s := initialized st in
  exists r l',
    show_final_result
      {| state := stored s; log := (l ++ history_events (messages s))%list |}
    = (r, {| state := stored s; log := l' |})
    /\ main E {| state := st; log := l |}
       = match r with
         | Ok _ => after_displays E s {| state := stored s; log := l' |}
         | Raise e => (Raise e, {| state := stored s; log := l' |})
         end.
Proof.
  intros s. destruct (show_final_result_state s (l ++ history_events (messages s)))
    as (r & l' & Hf).
  exists r, l'. split; [exact Hf |].
  unfold main.
  rewrite (bind_Ok _ _ _ _ _ (initialize_session_state_spec st l)).
  rewrite (bind_Ok _ _ _ _ _ (show_history_spec (initialized st) l)).
  fold s. unfold bind at 1. rewrite Hf. destruct r as [[] | e]; [| reflexivity].
  cbv [bind read]. cbn [state stored st_categorization_complete]. reflexivity.
Qed.

Lemma main_not_complete (E : env) (st : session_state) (l : list event) :
  categorization_complete (initialized st) = false ->
  main E {| state := st; log := l |}
  = chat_turn E {| state := stored (initialized st);
                   log := (l ++ history_events (messages (initialized st)))%list |}.
Proof.
  intros H. destruct (main_spec E st l) as (r & l' & Hf & ->).
  rewrite (show_final_result_not_complete _ _ H) in Hf. injection Hf as <- <-.
  unfold after_displays. now rewrite H.
Qed.

(** The completion client on a world. *)
Lemma call_openai_api_spec (E : env) (history : list Message) (w : world) :
  let request := {| role := "system"; content := SYSTEM_PROMPT E |} :: history in
  call_openai_api E history w
  = match completion E request with
    | Ok reply =>
        (Ok reply, {| state := state w; log := (log w ++ [called_api request])%list |})
    | Raise e =>
        if is_Exception e
        then (Ok None, {| state := state w;
                          log := (log w ++ [called_api request; st_error_api e])%list |})
        else (Raise e, {| state := state w; log := (log w ++ [called_api request])%list |})
    end.
Proof.
  intros request. unfold call_openai_api. fold request.
  cbv [bind try_except emit lift ret]. cbn [state log].
  destruct (completion E request) as [reply | e]; [reflexivity |].
  destruct (is_Exception e); [| reflexivity].
  cbn [state log]. now rewrite <- app_assoc.
Qed.

(** A turn, up to the reply of the service. *)
Lemma chat_turn_spec (E : env) (s : Session) (l : list event) (prompt : string) :
  chat_input E = Some prompt -> PyStr.truthy prompt = true ->
  let w1 := {| state := stored (with_message s (user_message prompt));
               log := (l ++ turn_events E (messages s) prompt)%list |} in
  chat_turn E {| state := stored s; log := l |}
  = match completion E (request_of E (messages s) prompt) with
    | Ok (Some response) =>
        if PyStr.truthy response then handle_response response w1
        else (Ok tt, w1)
    | Ok None => (Ok tt, w1)
    | Raise e =>
        if is_Exception e
        then (Ok tt, {| state := state w1; log := (log w1 ++ [st_error_api e])%list |})
        else (Raise e, w1)
    end.
Proof.
  intros Hin Hp w1. unfold chat_turn. rewrite Hin, Hp.
  cbv [bind append_message read set_messages get_state put_state emit].
  cbn [state log stored st_messages st_categorization_complete st_final_category].
  rewrite call_openai_api_spec. cbn [state log].
  unfold w1, request_of, turn_events, with_message, user_message, stored.
  cbn [messages categorization_complete final_category state log].
  rewrite <- !app_assoc. cbn [app].
  destruct (completion E _) as [[response |] | e]; try reflexivity.
  - now destruct (PyStr.truthy response).
  - destruct (is_Exception e); [| reflexivity].
    unfold ret. do 2 f_equal. now rewrite <- !app_assoc.
Qed.


(** A reply that is not empty: the extractor runs, and the reply either
    ends the session or is appended to the history. *)
Lemma handle_response_spec (response : string) (s : Session) (l : list event) :
  let continue (printed : list event) : res unit * world :=
    (Ok tt,
     {| state := stored (with_message s (assistant_message response));
        log := (l ++ called_extract response :: printed
                  ++ [st_markdown (rtl response)])%list |}) in
  handle_response response {| state := stored s; log := l |}
  = match extract_categorization_body response with
    | Ok (Some c) =>
        if has_both_fields c then
          match in_APPOINTMENT_CATEGORIES (dict_get c "category") with
          | Ok true =>
              (Raise RerunException,
               {| state := stored (completed_with s c);
                  log := (l ++ [called_extract response])%list |})
          | Ok false => continue []
          | Raise e =>
              (Raise e, {| state := stored s;
                           log := (l ++ [called_extract response])%list |})
          end
        else continue []
    | Ok None => continue []
    | Raise e => continue [print_parse_error e]
    end.
Proof.
  intros continue. unfold handle_response.
  unfold bind at 1. rewrite extract_categorization_spec.
  pose proof (body_raises response) as Hraise.
  destruct (extract_categorization_body response) as [[c |] | e].
  - destruct (has_both_fields c).
    + cbv [bind lift after_extract]. cbn [state log].
      destruct (in_APPOINTMENT_CATEGORIES (dict_get c "category")) as [[|] | e];
        try reflexivity.
      unfold continue, continue_conversation, with_message, assistant_message.
      cbv [bind emit append_message read set_messages get_state put_state].
      cbn. now rewrite <- !app_assoc.
    + unfold continue, continue_conversation, with_message, assistant_message.
      cbv [bind emit append_message read set_messages get_state put_state after_extract].
      cbn. now rewrite <- !app_assoc.
  - unfold continue, continue_conversation, with_message, assistant_message.
    cbv [bind emit append_message read set_messages get_state put_state after_extract].
    cbn. now rewrite <- !app_assoc.
  - rewrite (Hraise e eq_refl).
    unfold continue, continue_conversation, with_message, assistant_message.
    cbv [bind emit append_message read set_messages get_state put_state after_extract].
    cbn. now rewrite <- !app_assoc.
Qed.

Lemma reset_session_spec (w : world) :
  reset_session w
  = (Raise RerunException, {| state := stored initial_session; log := log w |}).
Proof. destruct w as [[m c f] l]. reflexivity. Qed.

Lemma dict_mem_get (k : string) (d : dict) :
  Dict.mem k d = true -> exists v, Dict.get k d = Some v /\ dict_get d k = v.
Proof.
  unfold Dict.mem, dict_get. destruct (Dict.get k d) as [v |]; [eauto | discriminate].
Qed.

Lemma valid_code_hashable (v : value) : valid_code v -> PyObj.hashable v = true.
Proof. intros (k & _ & H). destruct v; simpl in *; congruence. Qed.

Lemma handle_response_effect (response : string) (s : Session) (l : list event) :
  let s' := state (snd (handle_response response {| state := stored s; log := l |})) in
  s' = stored s
  \/ s' = stored (with_message s (assistant_message response))
  \/ exists c, has_both_fields c = true /\ valid_code (dict_get c "category")
               /\ s' = stored (completed_with s c).
Proof.
  cbv zeta. rewrite handle_response_spec.
  destruct (extract_categorization_body response) as [[c |] | e]; cbn; auto.
  destruct (has_both_fields c) eqn:Hb; cbn; auto.
  destruct (in_APPOINTMENT_CATEGORIES (dict_get c "category")) as [[|] | e] eqn:Hin;
    cbn; auto.
  right. right. exists c. apply in_categories_true in Hin as [_ Hv]. auto.
Qed.

Lemma next_state_effect (E : env) (st : session_state) :
  exists s', next_state E st = stored s' /\ run_effect (initialized st) s'.
Proof.
  unfold next_state, run.
  destruct (main_spec E st []) as (r & l' & _ & ->).
  destruct r as [[] | e]; [| exists (initialized st); split; [reflexivity | constructor]].
  unfold after_displays.
  destruct (categorization_complete (initialized st)) eqn:Hc; cbn [negb].
  - destruct (button E).
    + rewrite reset_session_spec. exists initial_session. split; [reflexivity |].
      now constructor.
    + exists (initialized st). split; [reflexivity | constructor].
  - destruct (chat_input E) as [prompt |] eqn:Hin.
    2:{ unfold chat_turn. rewrite Hin. exists (initialized st).
        split; [reflexivity | constructor]. }
    destruct (PyStr.truthy prompt) eqn:Hp.
    2:{ unfold chat_turn. rewrite Hin, Hp. exists (initialized st).
        split; [reflexivity | constructor]. }
    rewrite (chat_turn_spec E _ _ prompt Hin Hp).
    destruct (completion E _) as [[response |] | e].
    + destruct (PyStr.truthy response).
      * destruct (handle_response_effect response
                    (with_message (initialized st) (user_message prompt))
                    (l' ++ turn_events E (messages (initialized st)) prompt))
          as [H | [H | (c & Hb & Hv & H)]]; cbv zeta in H; rewrite H.
        -- eexists. split; [reflexivity | now constructor].
        -- eexists. split; [reflexivity | now constructor].
        -- eexists. split; [reflexivity | now constructor].
      * eexists. split; [reflexivity | now constructor].
    + eexists. split; [reflexivity | now constructor].
    + destruct (is_Exception e); eexists; (split; [reflexivity | now constructor]).
Qed.

Lemma run_effect_valid (s s' : Session) :
  run_effect s s' -> result_valid (stored s) -> result_valid (stored s').
Proof.
  intros Heff Hs. destruct Heff; try assumption; unfold result_valid; cbn.
  - discriminate.
  - intros _. unfold has_both_fields in H0.
    apply andb_prop in H0 as [H0 Hr]. apply andb_prop in H0 as [_ Hcat].
    apply dict_mem_get in Hcat as (category & Hcat & Hget).
    apply dict_mem_get in Hr as (reason & Hr & _).
    exists c, category, reason. rewrite Hget in H1. auto.
Qed.

Lemma initialized_valid (st : session_state) :
  result_valid st -> result_valid (stored (initialized st)).
Proof.
  unfold result_valid. destruct st as [m [[|] |] f]; cbn; try discriminate.
  intros H _. destruct (H eq_refl) as (d & c & r & -> & Hrest). eauto.
Qed.

Lemma initialized_stored (s : Session) : initialized (stored s) = s.
Proof. now destruct s. Qed.

Lemma truthy_nonempty (s : string) : s <> EmptyString -> PyStr.truthy s = true.
Proof. destruct s; [contradiction | reflexivity]. Qed.

Lemma display_final_result_returns (category reason : value) (w : world) :
  valid_code category -> fst (display_final_result category reason w) = Ok tt.
Proof.
  intros Hv. unfold display_final_result. cbv [bind emit lift].
  assert (Hin : in_APPOINTMENT_CATEGORIES category = Ok true).
  { apply in_categories_true. split; [now apply valid_code_hashable | assumption]. }
  rewrite Hin. cbn [negb state log].
  destruct (PyObj.eq_int category 1); [reflexivity |].
  destruct (PyObj.eq_int category 2); [reflexivity |].
  destruct (PyObj.eq_int category 3); [reflexivity |].
  destruct (PyObj.eq_int category 4); reflexivity.
Qed.

(** The result of a valid complete session is shown without error. *)
Lemma show_final_result_returns (s : Session) (l : list event) :
  result_valid (stored s) ->
  exists l', show_final_result {| state := stored s; log := l |}
             = (Ok tt, {| state := stored s; log := l' |}).
Proof.
  intros Hs. destruct (show_final_result_state s l) as (r & l' & H).
  exists l'. rewrite H. f_equal.
  change r with (fst (r, {| state := stored s; log := l' |})). rewrite <- H.
  clear H. unfold show_final_result. cbv [bind read lift].
  cbn [state stored st_categorization_complete st_final_category].
  destruct (categorization_complete s) eqn:Hc; [| reflexivity].
  destruct (Hs ltac:(cbn; now rewrite Hc)) as (d & c & r0 & [= Hf] & Hcat & Hv & Hr).
  rewrite Hf. cbn [truthy_categorization andb].
  destruct d as [| p d]; [discriminate |]. cbn [Dict.truthy PyObj.getitem].
  rewrite Hcat, Hr. now apply display_final_result_returns.
Qed.

End ControllerFacts.

(** * The properties of the specification *)
Import PyStrFacts DecoderFacts ExtractorFacts ControllerFacts.

#[local] Opaque Json.loads PyInt.of_str.
#[local] Arguments candidate_payload : simpl never.
#[local] Arguments in_APPOINTMENT_CATEGORIES : simpl never.
#[local] Arguments extract_categorization_body : simpl never.

(** An execution of the script keeps the result of a complete session
    valid. *)
Lemma next_state_valid (E : env) (st : session_state) :
  result_valid st -> result_valid (next_state E st).
Proof.
  intros Hv. destruct (next_state_effect E st) as (s' & -> & Heff).
  eapply run_effect_valid; [exact Heff | now apply initialized_valid].
Qed.

(** C1, as amended.  In every state a session can reach, if
    [categorization_complete] is true then [final_category] is a dict
    whose [category] is equal to one of 1, 2, 3, 4 and which has a
    [reason]; the reason may be empty, or no text at all. *)
Theorem complete_session_has_valid_result (st : session_state) :
  reachable st ->
  st_categorization_complete st = Some true ->
  exists (d : dict) (category reason : value),
    st_final_category st = Some (Some d)
    /\ Dict.get "category" d = Some category
    /\ valid_code category
    /\ Dict.get "reason" d = Some reason.
Proof.
  intros Hr. change (result_valid st).
  induction Hr as [| E st _ IH].
  - unfold result_valid. discriminate.
  - now apply next_state_valid.
Qed.

Lemma complete_session_has_valid_result_witness :
  reachable vaccine_state
  /\ st_categorization_complete vaccine_state = Some true
  /\ exists (d : dict) (category reason : value),
       st_final_category vaccine_state = Some (Some d)
       /\ Dict.get "category" d = Some category
       /\ valid_code category
       /\ Dict.get "reason" d = Some reason.
Proof.
  split; [apply reachable_run, reachable_fresh |].
  split; [vm_compute; reflexivity |].
  apply complete_session_has_valid_result;
    [apply reachable_run, reachable_fresh | vm_compute; reflexivity].
Defined.

(** C1, as stated, fails: a session completes on a reply whose reason is
    the empty text. *)
Lemma empty_reason_completes :
  reachable empty_reason_state
  /\ st_categorization_complete empty_reason_state = Some true
  /\ ~ result_valid_with_reason empty_reason_state.
Proof.
  split; [apply reachable_run, reachable_fresh |].
  split; [vm_compute; reflexivity |].
  intros H.
  destruct (H ltac:(vm_compute; reflexivity)) as (d & c & r & Hf & _ & _ & Hr & Hne).
  vm_compute in Hf. injection Hf as <-.
  vm_compute in Hr. injection Hr as <-. now apply Hne.
Qed.

(** C2.  Once [categorization_complete] is true, executions of the
    script in which the reset button is not clicked leave the history,
    the result and the flag as they are, whatever is submitted and
    whatever the service would answer; text put in the chat input is not
    read: the execution is the one with no input. *)
Theorem complete_session_is_terminal (s : Session) (Es : list env) :
  categorization_complete s = true ->
  Forall (fun E => button E = false) Es ->
  fold_left (fun st E => next_state E st) Es (stored s) = stored s
  /\ forall E, In E Es -> run E (stored s) = run (without_input E) (stored s).
Proof.
  intros Hc HEs.
  assert (Hmain : forall E, button E = false ->
    exists r l', run E (stored s) = (r, {| state := stored s; log := l' |})
                 /\ run (without_input E) (stored s) = run E (stored s)).
  { intros E Hb. unfold run.
    destruct (main_spec E (stored s) []) as (r & l' & Hf & HE).
    destruct (main_spec (without_input E) (stored s) []) as (r' & l'' & Hf' & HE').
    rewrite Hf in Hf'. injection Hf' as <- <-.
    rewrite initialized_stored in HE, HE'. rewrite HE, HE'.
    unfold after_displays. cbn [button without_input]. rewrite Hc, Hb. cbn [negb].
    exists (match r with Ok _ => Ok tt | Raise e => Raise e end), l'.
    now destruct r as [[] | e]. }
  split.
  - induction HEs as [| E Es Hb _ IH]; [reflexivity |].
    cbn [fold_left]. unfold next_state at 2.
    destruct (Hmain E Hb) as (r & l' & -> & _). exact IH.
  - intros E HE. rewrite Forall_forall in HEs.
    destruct (Hmain E (HEs E HE)) as (_ & _ & _ & H). now symmetry.
Qed.

Lemma complete_session_is_terminal_witness :
  let s := initialized vaccine_state in
  let Es := [ scripted (Some "one more question") false (Ok (Some vaccine_reply));
              scripted None false (Raise (ServiceError "unreachable")) ] in
  categorization_complete s = true
  /\ Forall (fun E => button E = false) Es
  /\ fold_left (fun st E => next_state E st) Es (stored s) = stored s
  /\ forall E, In E Es -> run E (stored s) = run (without_input E) (stored s).
Proof.
  intros s Es.
  assert (Hc : categorization_complete s = true) by (vm_compute; reflexivity).
  assert (HEs : Forall (fun E => button E = false) Es)
    by (repeat constructor).
  split; [exact Hc |]. split; [exact HEs |].
  exact (complete_session_is_terminal s Es Hc HEs).
Defined.

(** C3, at the input where the code departs from it.  The category 1.0
    passes the membership test, since the float 1.0 equals the key 1, and
    the accepted categorization carries it as the float it was decoded
    to, not as an int. *)
Theorem float_category_is_accepted_as_float :
  forall w : world,
    fst (extract_categorization (json_text "{'category': 1.0, 'reason': 'x'}") w)
    = Ok (Some [ ("category", PyFloat (S754_finite false 4503599627370496 (-52)));
                 ("reason", PyStr "x") ]).
Proof.
  intros w. rewrite extract_categorization_spec.
  replace (extract_categorization_body (json_text "{'category': 1.0, 'reason': 'x'}"))
    with (@Ok (option dict)
            (Some [ ("category", PyFloat (S754_finite false 4503599627370496 (-52)));
                    ("reason", PyStr "x") ]))
    by (vm_compute; reflexivity).
  reflexivity.
Qed.

(** C4, as amended.  When the call of the completion service raises an
    exception under [Exception], the client shows the error and returns
    [None] instead of raising; the execution ends normally; the
    completion flag stays false and the result is untouched; the history
    is the one before the turn with the user's message appended to it,
    and no assistant message. *)
Theorem failed_call_keeps_user_message (E : env) (st : session_state)
    (prompt : string) (e : exn) :
  let s := initialized st in
  categorization_complete s = false ->
  chat_input E = Some prompt ->
  prompt <> EmptyString ->
  completion E (request_of E (messages s) prompt) = Raise e ->
  is_Exception e = true ->
  (forall w,
     call_openai_api E (messages s ++ [user_message prompt]) w
     = (Ok None,
        {| state := state w;
           log := (log w ++ [called_api (request_of E (messages s) prompt);
                             st_error_api e])%list |}))
  /\ run E st
     = (Ok tt,
        {| state := stored (with_message s (user_message prompt));
           log := (history_events (messages s)
                     ++ turn_events E (messages s) prompt
                     ++ [st_error_api e])%list |}).
Proof.
  intros s Hc Hin Hp Hfail He. split.
  - intros w. rewrite call_openai_api_spec.
    change ({| role := "system"; content := SYSTEM_PROMPT E |}
              :: messages s ++ [user_message prompt])
      with (request_of E (messages s) prompt).
    now rewrite Hfail, He.
  - unfold run. rewrite (main_not_complete E st [] Hc).
    rewrite (chat_turn_spec E _ _ prompt Hin (truthy_nonempty _ Hp)).
    fold s. rewrite Hfail, He. cbn [state log app]. now rewrite <- app_assoc.
Qed.

Lemma failed_call_keeps_user_message_witness :
  let E := scripted (Some "hello") false (Raise (ServiceError "timeout")) in
  let s := initialized empty_state in
  categorization_complete s = false
  /\ chat_input E = Some "hello"
  /\ "hello" <> EmptyString
  /\ completion E (request_of E (messages s) "hello") = Raise (ServiceError "timeout")
  /\ is_Exception (ServiceError "timeout") = true
  /\ run E empty_state
     = (Ok tt,
        {| state := stored (with_message s (user_message "hello"));
           log := (history_events (messages s)
                     ++ turn_events E (messages s) "hello"
                     ++ [st_error_api (ServiceError "timeout")])%list |}).
Proof.
  intros E s.
  assert (Hp : "hello" <> EmptyString) by discriminate.
  repeat (split; [first [reflexivity | exact Hp] |]).
  exact (proj2 (failed_call_keeps_user_message E empty_state "hello"
                  (ServiceError "timeout") eq_refl eq_refl Hp eq_refl eq_refl)).
Defined.

(** C4, as stated, fails: the failed turn leaves the user's message in
    the history. *)
Lemma failed_call_changes_history :
  let E := scripted (Some "hello") false (Raise (ServiceError "timeout")) in
  completion E (request_of E [] "hello") = Raise (ServiceError "timeout")
  /\ is_Exception (ServiceError "timeout") = true
  /\ st_messages (next_state E (stored initial_session)) = Some [user_message "hello"]
  /\ st_messages (next_state E (stored initial_session))
     <> st_messages (stored initial_session).
Proof.
  intros E. repeat split; try reflexivity. vm_compute. discriminate.
Qed.

(** C5, as amended.  In a text with an opening and a closing brace: when
    the first opening brace comes before the last closing brace, the
    candidate payload is exactly the part of the text from the one to the
    other, both included; when it comes after, the candidate payload is
    empty and the extractor returns [None].  In a text that lacks one of
    the two, the extractor returns [None] and reports no error. *)
Theorem candidate_payload_spans (response : string) :
  (PyStr.contains "{" response = true ->
   PyStr.contains "}" response = true ->
   (PyStr.find "{" response < PyStr.rfind "}" response ->
    spans_first_to_last response (candidate_payload response))
   /\ (PyStr.rfind "}" response < PyStr.find "{" response ->
       candidate_payload response = EmptyString
       /\ forall w, fst (extract_categorization response w) = Ok None))
  /\ (PyStr.contains "{" response && PyStr.contains "}" response = false ->
      forall w, extract_categorization response w
                = (Ok None, after_extract response [] w)).
Proof.
  split.
  - intros Ho Hc.
    destruct (find_split _ _ Ho) as (pre & r1 & Hpre & Hno & Hfind).
    destruct (rfind_split _ _ Hc) as (p2 & post & Hp2 & Hnc & Hrfind).
    split.
    + intros Hlt. rewrite Hfind, Hrfind in Hlt. unfold PyStr.len in Hlt.
      assert (Heq : pre ++ String "{" r1 = p2 ++ String "}" post) by congruence.
      destruct (append_eq_append _ _ _ _ Heq ltac:(lia)) as (m & -> & Hm & Hne).
      destruct m as [| x m]; [contradiction |].
      cbn [append] in Hm. injection Hm as <- ->.
      exists pre, m, post.
      assert (Hresp : response
                      = pre ++ String "{" (m ++ String "}" EmptyString) ++ post).
      { rewrite Hpre. f_equal. cbn [append]. f_equal. now rewrite append_assoc. }
      assert (Hpay : candidate_payload response
                     = String "{" (m ++ String "}" EmptyString)).
      { unfold candidate_payload. rewrite Hfind, Hrfind.
        rewrite Hresp at 1.
        replace (PyStr.len (pre ++ String "{" m) + 1)
          with (PyStr.len pre + PyStr.len (String "{" (m ++ String "}" EmptyString))).
        - apply slice_middle.
        - unfold PyStr.len. cbn [String.length]. rewrite !length_append.
          cbn [String.length]. lia. }
      rewrite Hpay. repeat split; assumption.
    + intros Hlt.
      assert (Hempty : candidate_payload response = EmptyString).
      { unfold candidate_payload. apply slice_crossed.
        rewrite Hfind, Hrfind in *. unfold PyStr.len in *. lia. }
      split; [exact Hempty |].
      intros w. rewrite extract_categorization_spec.
      unfold extract_categorization_body. rewrite Ho, Hc, Hempty. cbn [andb].
      replace (Json.loads EmptyString) with (@Raise value JSONDecodeError)
        by (vm_compute; reflexivity).
      reflexivity.
  - intros H w. rewrite extract_categorization_spec.
    unfold extract_categorization_body. now rewrite H.
Qed.

Lemma candidate_payload_spans_witness :
  let response := vaccine_reply in
  PyStr.contains "{" response = true
  /\ PyStr.contains "}" response = true
  /\ PyStr.find "{" response < PyStr.rfind "}" response
  /\ spans_first_to_last response (candidate_payload response)
  /\ PyStr.contains "{" "no braces" && PyStr.contains "}" "no braces" = false
  /\ extract_categorization "no braces" {| state := empty_state; log := [] |}
     = (Ok None, after_extract "no braces" [] {| state := empty_state; log := [] |}).
Proof.
  intros response.
  assert (Ho : PyStr.contains "{" response = true) by (vm_compute; reflexivity).
  assert (Hc : PyStr.contains "}" response = true) by (vm_compute; reflexivity).
  assert (Hlt : PyStr.find "{" response < PyStr.rfind "}" response)
    by (vm_compute; reflexivity).
  assert (Hn : PyStr.contains "{" "no braces" && PyStr.contains "}" "no braces" = false)
    by (vm_compute; reflexivity).
  split; [exact Ho |]. split; [exact Hc |]. split; [exact Hlt |].
  split; [exact (proj1 (proj1 (candidate_payload_spans response) Ho Hc) Hlt) |].
  split; [exact Hn |].
  exact (proj2 (candidate_payload_spans "no braces") Hn _).
Defined.

(** C5, as stated, fails: in a text whose only closing brace comes before
    its only opening brace, the candidate payload is empty; it is not the
    part of the text from the first opening brace to the last closing
    brace. *)
Lemma crossed_braces_payload :
  PyStr.contains "{" "}{" = true
  /\ PyStr.contains "}" "}{" = true
  /\ candidate_payload "}{" = EmptyString
  /\ ~ spans_first_to_last "}{" (candidate_payload "}{").
Proof.
  repeat split; try reflexivity.
  intros (pre & mid & post & _ & Hpay & _). discriminate Hpay.
Qed.

Lemma getitem_dict (v : value) (k : string) (x : value) :
  PyObj.getitem v k = Ok x -> PyObj.contains k v = Ok true.
Proof.
  destruct v; cbn; try discriminate. unfold Dict.mem.
  now destruct (Dict.get k d).
Qed.

Lemma not_valid_code (number : value) :
  PyObj.hashable number = true -> ~ valid_code number ->
  in_APPOINTMENT_CATEGORIES number = Ok false.
Proof.
  intros Hh Hn. destruct (in_APPOINTMENT_CATEGORIES number) as [[|] | e] eqn:Hin.
  - apply in_categories_true in Hin as [_ Hv]. contradiction.
  - reflexivity.
  - unfold in_APPOINTMENT_CATEGORIES in Hin. rewrite Hh in Hin. discriminate.
Qed.

(** C6.  The extractor returns [None] when the candidate payload fails to
    decode, when the decoded payload has no [category], when the category
    is a text that does not convert to a number, and when the number is
    none of the four codes. *)
Theorem no_categorization_returns_None (response : string) :
  no_categorization response ->
  forall w, fst (extract_categorization response w) = Ok None.
Proof.
  intros H w. rewrite extract_categorization_spec.
  pose proof (body_raises response) as Hraise.
  assert (Hbody : extract_categorization_body response = Ok None
                  \/ exists e, extract_categorization_body response = Raise e).
  { unfold extract_categorization_body.
    destruct (PyStr.contains "{" response && PyStr.contains "}" response);
      [| now left].
    destruct H as [e Hl | decoded Hl Hc | decoded text e Hl Hg Hi
                  | decoded category number Hl Hg Hconv Hn];
      rewrite Hl; cbn [res_bind].
    - right. eauto.
    - rewrite Hc. now left.
    - rewrite (getitem_dict _ _ _ Hg), Hg. cbn [res_bind].
      rewrite Hi, (of_str_raises _ _ Hi). now left.
    - rewrite (getitem_dict _ _ _ Hg), Hg. cbn [res_bind].
      assert (Hin : in_APPOINTMENT_CATEGORIES number = Ok false)
        by (apply not_valid_code; [now destruct Hconv | assumption]).
      destruct Hconv as [n | f | text n Hi]; try rewrite Hi;
        rewrite Hin; now left. }
  destruct Hbody as [-> | (e & He)]; [reflexivity |].
  rewrite He, (Hraise e He). reflexivity.
Qed.

Lemma no_categorization_returns_None_witness :
  let w := {| state := empty_state; log := [] |} in
  let undecoded := "Let me think {not yet}" in
  let unlabelled := json_text "{'reason': 'unclear'}" in
  let worded := json_text "{'category': 'clinical', 'reason': 'unclear'}" in
  let out_of_range := json_text "{'category': '9', 'reason': 'unclear'}" in
  (no_categorization undecoded /\ fst (extract_categorization undecoded w) = Ok None)
  /\ (no_categorization unlabelled /\ fst (extract_categorization unlabelled w) = Ok None)
  /\ (no_categorization worded /\ fst (extract_categorization worded w) = Ok None)
  /\ (no_categorization out_of_range
      /\ fst (extract_categorization out_of_range w) = Ok None).
Proof.
  intros w undecoded unlabelled worded out_of_range.
  assert (H1 : no_categorization undecoded).
  { apply undecodable with (e := JSONDecodeError). vm_compute. reflexivity. }
  assert (H2 : no_categorization unlabelled).
  { apply no_category_field with (decoded := PyDict [("reason", PyStr "unclear")]);
      vm_compute; reflexivity. }
  assert (H3 : no_categorization worded).
  { apply text_not_a_number
      with (decoded := PyDict [("category", PyStr "clinical"); ("reason", PyStr "unclear")])
           (text := "clinical") (e := ValueError);
      vm_compute; reflexivity. }
  assert (H4 : no_categorization out_of_range).
  { apply number_not_a_code
      with (decoded := PyDict [("category", PyStr "9"); ("reason", PyStr "unclear")])
           (category := PyStr "9") (number := PyInt 9);
      try (vm_compute; reflexivity).
    - apply converts_text. vm_compute. reflexivity.
    - intros (k & Hk & Heq). unfold PyObj.eq_int in Heq.
      apply Z.eqb_eq in Heq. lia. }
  split; [split; [exact H1 | exact (no_categorization_returns_None _ H1 w)] |].
  split; [split; [exact H2 | exact (no_categorization_returns_None _ H2 w)] |].
  split; [split; [exact H3 | exact (no_categorization_returns_None _ H3 w)] |].
  split; [exact H4 | exact (no_categorization_returns_None _ H4 w)].
Defined.



(** C8.  Whatever the history, the flag and the result before, the reset
    (lines 217-220) leaves an empty history, a false flag and no result;
    and in every state a complete session can reach, an execution of the
    script in which the reset button is clicked leaves exactly that. *)
Theorem reset_yields_initial_session (w : world) (E : env) (st : session_state) :
  reset_session w
  = (Raise RerunException, {| state := stored initial_session; log := log w |})
  /\ (reachable st ->
      st_categorization_complete st = Some true ->
      button E = true ->
      next_state E st = stored initial_session).
Proof.
  split; [apply reset_session_spec |].
  intros Hr Hc Hb.
  assert (Hv : result_valid (stored (initialized st))).
  { apply initialized_valid. clear Hc.
    induction Hr as [| E' st _ IH];
      [unfold result_valid; discriminate | now apply next_state_valid]. }
  assert (Hc' : categorization_complete (initialized st) = true)
    by (unfold initialized; now rewrite Hc).
  unfold next_state, run.
  destruct (main_spec E st []) as (r & l' & Hf & ->).
  destruct (show_final_result_returns _ ([] ++ history_events (messages (initialized st))) Hv)
    as (l'' & Hf').
  rewrite Hf' in Hf. injection Hf as <- <-.
  unfold after_displays. rewrite Hc', Hb. cbn [negb].
  now rewrite reset_session_spec.
Qed.

Lemma reset_yields_initial_session_witness :
  let E := scripted None true (Ok None) in
  reachable vaccine_state
  /\ st_categorization_complete vaccine_state = Some true
  /\ button E = true
  /\ next_state E vaccine_state = stored initial_session.
Proof.
  intros E.
  assert (Hr : reachable vaccine_state) by apply reachable_run, reachable_fresh.
  assert (Hc : st_categorization_complete vaccine_state = Some true)
    by (vm_compute; reflexivity).
  split; [exact Hr |]. split; [exact Hc |]. split; [reflexivity |].
  exact (proj2 (reset_yields_initial_session
                  {| state := empty_state; log := [] |} E vaccine_state)
           Hr Hc eq_refl).
Defined.

(** C9.  On every text the extractor returns, with a dict or with
    [None]; nothing is raised to the caller: an exception raised while
    decoding or converting is caught, printed, and answered by [None].
    The session is not touched. *)
Theorem extract_categorization_returns (response : string) (w : world) :
  exists (r : option dict) (printed : list event),
    extract_categorization response w = (Ok r, after_extract response printed w)
    /\ (printed = []
        \/ exists e, is_Exception e = true
                     /\ printed = [print_parse_error e] /\ r = None).
Proof.
  rewrite extract_categorization_spec.
  pose proof (body_raises response) as Hraise.
  destruct (extract_categorization_body response) as [r | e].
  - exists r, []. auto.
  - rewrite (Hraise e eq_refl). exists None, [print_parse_error e].
    split; [reflexivity |]. right. exists e. auto.
Qed.

Lemma history_events_no_extract (history : list Message) (response : string) :
  ~ In (called_extract response) (history_events history).
Proof.
  induction history as [| m history IH]; cbn; [tauto |].
  intros [H | [H | H]]; [discriminate | discriminate | contradiction].
Qed.

(** C10.  When the service answers with the empty text, the execution is
    the one of an absent reply: the user's message is the last of the
    history, no assistant message is appended, the extractor is not
    called, the completion flag stays false and the script ends normally,
    ready for the next input. *)
Theorem empty_reply_is_no_reply (E : env) (st : session_state) (prompt : string) :
  let s := initialized st in
  categorization_complete s = false ->
  chat_input E = Some prompt ->
  prompt <> EmptyString ->
  completion E (request_of E (messages s) prompt) = Ok (Some EmptyString) ->
  run E st = run (with_completion E (fun _ => Ok None)) st
  /\ run E st
     = (Ok tt,
        {| state := stored (with_message s (user_message prompt));
           log := (history_events (messages s)
                     ++ turn_events E (messages s) prompt)%list |})
  /\ forall response, ~ In (called_extract response) (log (snd (run E st))).
Proof.
  intros s Hc Hin Hp Hreply.
  assert (Hrun : run E st
    = (Ok tt,
       {| state := stored (with_message s (user_message prompt));
          log := (history_events (messages s)
                    ++ turn_events E (messages s) prompt)%list |})).
  { unfold run. rewrite (main_not_complete E st [] Hc).
    rewrite (chat_turn_spec E _ _ prompt Hin (truthy_nonempty _ Hp)).
    fold s. now rewrite Hreply. }
  split; [| split; [exact Hrun |]].
  - rewrite Hrun. unfold run.
    rewrite (main_not_complete (with_completion E (fun _ => Ok None)) st [] Hc).
    rewrite (chat_turn_spec (with_completion E (fun _ => Ok None)) _ _ prompt
               Hin (truthy_nonempty _ Hp)).
    reflexivity.
  - intros response. rewrite Hrun. cbn [snd log]. intros H.
    apply in_app_or in H as [H | H].
    + exact (history_events_no_extract _ _ H).
    + cbn in H. repeat (destruct H as [H | H]; [discriminate |]). exact H.
Qed.

Lemma empty_reply_is_no_reply_witness :
  let E := scripted (Some "hello") false (Ok (Some EmptyString)) in
  let s := initialized empty_state in
  categorization_complete s = false
  /\ chat_input E = Some "hello"
  /\ "hello" <> EmptyString
  /\ completion E (request_of E (messages s) "hello") = Ok (Some EmptyString)
  /\ run E empty_state = run (with_completion E (fun _ => Ok None)) empty_state.
Proof.
  intros E s.
  assert (Hp : "hello" <> EmptyString) by discriminate.
  repeat (split; [first [reflexivity | exact Hp] |]).
  exact (proj1 (empty_reply_is_no_reply E empty_state "hello"
                  eq_refl eq_refl Hp eq_refl)).
Defined.

(** * Further properties of the code *)

(** ** The extractor, from the decoded payload to the categorization *)
Module ExtractorMore.
Import DecoderFacts ExtractorFacts.

#[local] Opaque Json.loads PyInt.of_str.
#[local] Arguments candidate_payload : simpl never.
#[local] Arguments in_APPOINTMENT_CATEGORIES : simpl never.
#[local] Arguments PyObj.setitem : simpl never.

Lemma dict_set_same (k : string) (v : value) (d : dict) :
  Dict.get k d = Some v -> Dict.set k v d = d.
Proof.
  induction d as [| [k' v'] d IH]; simpl; [discriminate |].
  destruct (String.eqb k' k); [now intros [= ->] | intros H; now rewrite IH].
Qed.

Lemma getitem_get (decoded : value) (k : string) (x : value) :
  PyObj.getitem decoded k = Ok x ->
  exists d, decoded = PyDict d /\ Dict.get k d = Some x.
Proof.
  destruct decoded; cbn; try discriminate.
  destruct (Dict.get k d) eqn:E; [intros [= ->]; eauto | discriminate].
Qed.

(** An accepted categorization, traced back to the decoded payload. *)
Lemma body_accepts_from (response : string) (c : dict) :
  extract_categorization_body response = Ok (Some c) ->
  exists (d : dict) (original category : value),
    PyStr.contains "{" response && PyStr.contains "}" response = true
    /\ Json.loads (candidate_payload response) = Ok (PyDict d)
    /\ Dict.get "category" d = Some original
    /\ normalizes_to original category
    /\ valid_code category
    /\ c = Dict.set "category" category d.
Proof.
  unfold extract_categorization_body.
  destruct (PyStr.contains "{" response && PyStr.contains "}" response);
    [| discriminate].
  destruct (Json.loads (candidate_payload response)) as [decoded | e'] eqn:Hl; cbn;
    [| discriminate].
  destruct (PyObj.contains "category" decoded) as [[|] | e'] eqn:Hc; cbn;
    try discriminate.
  destruct (PyObj.getitem decoded "category") as [original | e'] eqn:Hg; cbn;
    [| discriminate].
  destruct (getitem_get _ _ _ Hg) as (d & -> & Hget).
  assert (Hv : forall v r,
    (let* valid := in_APPOINTMENT_CATEGORIES v in
     if negb valid then Ok None
     else let* d' := PyObj.setitem (PyDict d) "category" v in Ok (Some d')) = r ->
    r = Ok (Some c) -> valid_code v /\ c = Dict.set "category" v d).
  { intros v r Hr ->.
    apply validate_cases in Hr as [[Hr _] | [Hr | (d' & [= <-] & Hvc & Hr)]];
      try discriminate. injection Hr as ->. auto. }
  destruct original as [| b | n | f | text | l | d0].
  5:{ destruct (PyInt.of_str text) as [n | e'] eqn:Hi.
      - intros H. destruct (Hv _ _ eq_refl H) as [Hvc ->].
        exists d, (PyStr text), (PyInt n). repeat split; auto. now constructor.
      - rewrite (of_str_raises _ _ Hi). discriminate. }
  all: intros H; destruct (Hv _ _ eq_refl H) as [Hvc ->];
    eexists d, _, _; repeat split; eauto; constructor; discriminate.
Qed.


Lemma dict_set_keys (k : string) (v : value) (d : dict) :
  Dict.mem k d = true -> map fst (Dict.set k v d) = map fst d.
Proof.
  unfold Dict.mem. induction d as [| [k' v'] d IH]; simpl; [discriminate |].
  destruct (String.eqb k' k); [reflexivity | intros H; simpl; now rewrite IH].
Qed.

Lemma extract_accepts_body (response : string) (w : world) (c : dict) :
  fst (extract_categorization response w) = Ok (Some c) ->
  extract_categorization_body response = Ok (Some c).
Proof.
  rewrite extract_categorization_spec.
  destruct (extract_categorization_body response) as [r | e]; cbn.
  - now intros [= ->].
  - destruct (is_Exception e); discriminate.
Qed.

Lemma valid_code_int (n : Z) : valid_code (PyInt n) -> 1 <= n <= 4.
Proof. intros (k & Hk & H). cbn in H. apply Z.eqb_eq in H. lia. Qed.

End ExtractorMore.

Import ExtractorMore.

(** X1.  A categorization the extractor returns is the decoded payload
    with its fields in the decoded order and, but for [category], with
    the decoded values: the reason and any other field are carried
    through as they are.  Its category is equal to one of the four
    codes. *)
Theorem accepted_categorization_keeps_fields (response : string) (w : world)
    (c : dict) :
  fst (extract_categorization response w) = Ok (Some c) ->
  exists d : dict,
    Json.loads (candidate_payload response) = Ok (PyDict d)
    /\ map fst c = map fst d
    /\ (forall k, k <> "category" -> Dict.get k c = Dict.get k d)
    /\ exists category, Dict.get "category" c = Some category /\ valid_code category.
Proof.
  intros H. apply extract_accepts_body, body_accepts_from in H
    as (d & original & category & _ & Hl & Hget & _ & Hv & ->).
  exists d. split; [exact Hl |]. split.
  - apply dict_set_keys. unfold Dict.mem. now rewrite Hget.
  - split.
    + intros k Hk. apply dict_get_set_other. congruence.
    + exists category. split; [apply dict_get_set | exact Hv].
Qed.

Lemma accepted_categorization_keeps_fields_witness :
  let w := {| state := empty_state; log := [] |} in
  let c := [("category", PyInt 3); ("reason", PyStr "cough"); ("urgent", PyBool false)] in
  fst (extract_categorization text_category_reply w) = Ok (Some c)
  /\ exists d : dict,
       Json.loads (candidate_payload text_category_reply) = Ok (PyDict d)
       /\ map fst c = map fst d
       /\ (forall k, k <> "category" -> Dict.get k c = Dict.get k d)
       /\ exists category, Dict.get "category" c = Some category /\ valid_code category.
Proof.
  intros w c.
  assert (H : fst (extract_categorization text_category_reply w) = Ok (Some c))
    by (vm_compute; reflexivity).
  split; [exact H |].
  exact (accepted_categorization_keeps_fields text_category_reply w c H).
Defined.

(** X2.  When the decoded category is a text or an int, the category of
    the categorization the extractor returns is an int between 1 and 4:
    the int decoded, or the one the text converts to. *)
Theorem accepted_text_or_int_category_is_int (response : string) (w : world)
    (c d : dict) (original : value) :
  fst (extract_categorization response w) = Ok (Some c) ->
  Json.loads (candidate_payload response) = Ok (PyDict d) ->
  Dict.get "category" d = Some original ->
  (exists text, original = PyStr text) \/ (exists n, original = PyInt n) ->
  exists n : Z,
    1 <= n <= 4
    /\ Dict.get "category" c = Some (PyInt n)
    /\ (original = PyInt n \/ exists text, original = PyStr text /\ PyInt.of_str text = Ok n).
Proof.
  intros H Hl Hget Horig. apply extract_accepts_body, body_accepts_from in H
    as (d' & original' & category & _ & Hl' & Hget' & Hnorm & Hv & ->).
  rewrite Hl in Hl'. injection Hl' as <-.
  rewrite Hget in Hget'. injection Hget' as <-.
  rewrite dict_get_set.
  destruct Horig as [(text & ->) | (n & ->)].
  - inversion Hnorm as [text' n Hi | v Hno]; subst.
    + exists n. split; [now apply valid_code_int |]. split; [reflexivity |].
      right. eauto.
    + now destruct (Hno text).
  - inversion Hnorm; subst.
    exists n. split; [now apply valid_code_int |]. auto.
Qed.

Lemma accepted_text_or_int_category_is_int_witness :
  let w := {| state := empty_state; log := [] |} in
  let d := [("category", PyStr " 3 "); ("reason", PyStr "cough"); ("urgent", PyBool false)] in
  let c := [("category", PyInt 3); ("reason", PyStr "cough"); ("urgent", PyBool false)] in
  fst (extract_categorization text_category_reply w) = Ok (Some c)
  /\ Json.loads (candidate_payload text_category_reply) = Ok (PyDict d)
  /\ Dict.get "category" d = Some (PyStr " 3 ")
  /\ exists n : Z,
       1 <= n <= 4
       /\ Dict.get "category" c = Some (PyInt n)
       /\ (PyStr " 3 " = PyInt n
           \/ exists text, PyStr " 3 " = PyStr text /\ PyInt.of_str text = Ok n).
Proof.
  intros w d c.
  assert (H : fst (extract_categorization text_category_reply w) = Ok (Some c))
    by (vm_compute; reflexivity).
  assert (Hl : Json.loads (candidate_payload text_category_reply) = Ok (PyDict d))
    by (vm_compute; reflexivity).
  split; [exact H |]. split; [exact Hl |]. split; [reflexivity |].
  exact (accepted_text_or_int_category_is_int text_category_reply w c d (PyStr " 3 ")
           H Hl eq_refl (or_introl (ex_intro _ " 3 " eq_refl))).
Defined.

(** X3.  When the decoded category is not a text, the categorization the
    extractor returns is the decoded payload itself, with nothing
    changed: the category keeps the type it was decoded to. *)
Theorem accepted_nontext_category_is_unchanged (response : string) (w : world)
    (c d : dict) (original : value) :
  fst (extract_categorization response w) = Ok (Some c) ->
  Json.loads (candidate_payload response) = Ok (PyDict d) ->
  Dict.get "category" d = Some original ->
  (forall text, original <> PyStr text) ->
  c = d.
Proof.
  intros H Hl Hget Hno. apply extract_accepts_body, body_accepts_from in H
    as (d' & original' & category & _ & Hl' & Hget' & Hnorm & _ & ->).
  rewrite Hl in Hl'. injection Hl' as <-.
  rewrite Hget in Hget'. injection Hget' as <-.
  inversion Hnorm as [text n Hi | v _]; subst; [now destruct (Hno text) |].
  now apply dict_set_same.
Qed.

Lemma accepted_nontext_category_is_unchanged_witness :
  let w := {| state := empty_state; log := [] |} in
  let d := [("category", PyInt 2); ("reason", PyStr "travel vaccination request")] in
  fst (extract_categorization vaccine_reply w) = Ok (Some d)
  /\ Json.loads (candidate_payload vaccine_reply) = Ok (PyDict d)
  /\ Dict.get "category" d = Some (PyInt 2)
  /\ (forall text, PyInt 2 <> PyStr text)
  /\ d = d.
Proof.
  intros w d.
  assert (H : fst (extract_categorization vaccine_reply w) = Ok (Some d))
    by (vm_compute; reflexivity).
  assert (Hl : Json.loads (candidate_payload vaccine_reply) = Ok (PyDict d))
    by (vm_compute; reflexivity).
  assert (Hno : forall text, PyInt 2 <> PyStr text) by discriminate.
  split; [exact H |]. split; [exact Hl |]. split; [reflexivity |].
  split; [exact Hno |].
  exact (accepted_nontext_category_is_unchanged vaccine_reply w d d (PyInt 2)
           H Hl eq_refl Hno).
Defined.

(** X4.  Whatever the extractor returns passes the controller's tests on
    the category: the dict is not empty, has a [category], and the
    category is in the taxonomy (the test of line 201 never fails, lines
    206-209 are never reached).  The test of line 196 comes down to the
    presence of a [reason]. *)
Theorem accepted_categorization_passes_controller_tests (response : string)
    (w : world) (c : dict) :
  fst (extract_categorization response w) = Ok (Some c) ->
  Dict.truthy c = true
  /\ Dict.mem "category" c = true
  /\ in_APPOINTMENT_CATEGORIES (dict_get c "category") = Ok true
  /\ has_both_fields c = Dict.mem "reason" c.
Proof.
  intros H. apply extract_accepts_body, body_accepts_from in H
    as (d & original & category & _ & _ & _ & _ & Hv & ->).
  assert (Hm : Dict.mem "category" (Dict.set "category" category d) = true)
    by (unfold Dict.mem; now rewrite dict_get_set).
  assert (Ht : Dict.truthy (Dict.set "category" category d) = true).
  { destruct d as [| [k v] d]; cbn; [reflexivity |]. now destruct (String.eqb k "category"). }
  split; [exact Ht |]. split; [exact Hm |]. split.
  - unfold dict_get. rewrite dict_get_set. apply in_categories_true.
    split; [now apply valid_code_hashable | exact Hv].
  - unfold has_both_fields. now rewrite Ht, Hm.
Qed.

Lemma accepted_categorization_passes_controller_tests_witness :
  let w := {| state := empty_state; log := [] |} in
  let c := [("category", PyInt 3); ("reason", PyStr "cough"); ("urgent", PyBool false)] in
  fst (extract_categorization text_category_reply w) = Ok (Some c)
  /\ Dict.truthy c = true
  /\ Dict.mem "category" c = true
  /\ in_APPOINTMENT_CATEGORIES (dict_get c "category") = Ok true
  /\ has_both_fields c = Dict.mem "reason" c.
Proof.
  intros w c.
  assert (H : fst (extract_categorization text_category_reply w) = Ok (Some c))
    by (vm_compute; reflexivity).
  split; [exact H |].
  exact (accepted_categorization_passes_controller_tests text_category_reply w c H).
Defined.

(** X5.  A category that is a JSON array or object is refused: the
    membership test raises [TypeError] on the unhashable value, the
    handler prints the error and the extractor returns [None]. *)
Theorem unhashable_category_is_refused (response : string) (w : world)
    (decoded category : value) :
  PyStr.contains "{" response && PyStr.contains "}" response = true ->
  Json.loads (candidate_payload response) = Ok decoded ->
  PyObj.getitem decoded "category" = Ok category ->
  PyObj.hashable category = false ->
  extract_categorization response w
  = (Ok None, after_extract response [print_parse_error TypeError] w).
Proof.
  intros Hb Hl Hg Hh. rewrite extract_categorization_spec.
  assert (Hbody : extract_categorization_body response = Raise TypeError).
  { unfold extract_categorization_body. rewrite Hb, Hl. cbn [res_bind].
    destruct (getitem_get _ _ _ Hg) as (d & -> & Hget).
    cbn [PyObj.contains PyObj.getitem]. unfold Dict.mem. rewrite Hget. cbn [res_bind].
    unfold in_APPOINTMENT_CATEGORIES.
    destruct category; try discriminate; cbn [PyObj.hashable res_bind]; reflexivity. }
  now rewrite Hbody.
Qed.

Lemma unhashable_category_is_refused_witness :
  let w := {| state := empty_state; log := [] |} in
  let decoded := PyDict [("category", PyList [PyInt 4]); ("reason", PyStr "needs the doctor")] in
  PyStr.contains "{" array_category_reply && PyStr.contains "}" array_category_reply = true
  /\ Json.loads (candidate_payload array_category_reply) = Ok decoded
  /\ PyObj.getitem decoded "category" = Ok (PyList [PyInt 4])
  /\ PyObj.hashable (PyList [PyInt 4]) = false
  /\ extract_categorization array_category_reply w
     = (Ok None, after_extract array_category_reply [print_parse_error TypeError] w).
Proof.
  intros w decoded.
  assert (Hb : PyStr.contains "{" array_category_reply
               && PyStr.contains "}" array_category_reply = true)
    by (vm_compute; reflexivity).
  assert (Hl : Json.loads (candidate_payload array_category_reply) = Ok decoded)
    by (vm_compute; reflexivity).
  split; [exact Hb |]. split; [exact Hl |]. split; [reflexivity |].
  split; [reflexivity |].
  exact (unhashable_category_is_refused array_category_reply w decoded
           (PyList [PyInt 4]) Hb Hl eq_refl eq_refl).
Defined.

Module ControllerMore.
Import ExtractorMore.

Lemma display_final_result_spec (category reason : value) (w : world) :
  display_final_result category reason w
  = match in_APPOINTMENT_CATEGORIES category with
    | Raise e =>
        (Raise e, {| state := state w; log := (log w ++ [st_success_found])%list |})
    | Ok false =>
        (Ok tt, {| state := state w;
                   log := (log w ++ [st_success_found; st_error_category category])%list |})
    | Ok true =>
        (Ok tt,
         {| state := state w;
            log := (log w ++
                    [ st_success_found;
                      st_markdown_result
                        match int_keyed_get category APPOINTMENT_CATEGORIES with
                        | Some d => d
                        | None => "קטגוריה לא ידועה"
                        end
                        match int_keyed_get category category_colors with
                        | Some c => c
                        | None => "gray"
                        end
                        reason;
                      suggestion category ])%list |})
    end.
Proof.
  unfold display_final_result, suggestion. cbv [bind emit lift]. cbn [state log].
  destruct (in_APPOINTMENT_CATEGORIES category) as [[|] | e]; cbn [negb state log].
  - destruct (PyObj.eq_int category 1);
      [| destruct (PyObj.eq_int category 2);
         [| destruct (PyObj.eq_int category 3);
            [| destruct (PyObj.eq_int category 4)]]];
      cbn [state log]; rewrite <- !app_assoc; reflexivity.
  - now rewrite <- app_assoc.
  - reflexivity.
Qed.


Lemma contains_truthy (c : ascii) (s : string) :
  PyStr.contains c s = true -> PyStr.truthy s = true.
Proof. destruct s; [discriminate | reflexivity]. Qed.


Lemma body_accepts_tests (response : string) (c : dict) :
  extract_categorization_body response = Ok (Some c) ->
  PyStr.truthy response = true
  /\ in_APPOINTMENT_CATEGORIES (dict_get c "category") = Ok true
  /\ has_both_fields c = Dict.mem "reason" c.
Proof.
  intros H. destruct (body_accepts_from _ _ H)
    as (d & original & category & Hb & _ & _ & _ & Hv & ->).
  apply andb_prop in Hb as [Hb _]. split; [exact (contains_truthy _ _ Hb) |].
  assert (Hm : Dict.mem "category" (Dict.set "category" category d) = true)
    by (unfold Dict.mem; now rewrite dict_get_set).
  assert (Ht : Dict.truthy (Dict.set "category" category d) = true).
  { destruct d as [| [k v] d]; cbn; [reflexivity |]. now destruct (String.eqb k "category"). }
  split.
  - unfold dict_get. rewrite dict_get_set. apply in_categories_true.
    split; [now apply valid_code_hashable | exact Hv].
  - unfold has_both_fields. now rewrite Ht, Hm.
Qed.

(** A reply that is not empty either ends the session, with a rerun, or
    is appended to the history. *)
Lemma handle_response_cases (response : string) (s : Session) (l : list event) :
  (exists c,
     extract_categorization_body response = Ok (Some c)
     /\ Dict.mem "reason" c = true
     /\ handle_response response {| state := stored s; log := l |}
        = (Raise RerunException,
           {| state := stored (completed_with s c);
              log := (l ++ [called_extract response])%list |}))
  \/ (exists printed,
        match extract_categorization_body response with
        | Ok (Some c) => Dict.mem "reason" c = false
        | _ => True
        end
        /\ handle_response response {| state := stored s; log := l |}
           = (Ok tt,
              {| state := stored (with_message s (assistant_message response));
                 log := (l ++ called_extract response :: printed
                           ++ [st_markdown (rtl response)])%list |})
        /\ (printed = [] \/ exists e, printed = [print_parse_error e])).
Proof.
  rewrite handle_response_spec.
  destruct (extract_categorization_body response) as [[c |] | e] eqn:Hbody.
  - destruct (body_accepts_tests _ _ Hbody) as (_ & Hin & Hboth).
    rewrite Hboth, Hin. destruct (Dict.mem "reason" c) eqn:Hm.
    + left. exists c. auto.
    + right. exists []. auto.
  - right. exists []. auto.
  - right. exists [print_parse_error e]. eauto.
Qed.

End ControllerMore.

Import ControllerMore.

(** X6.  A turn whose reply carries a categorization the extractor
    accepts, with a reason, ends the session: the flag is set, the result
    is the categorization, the script asks for a rerun; the history gets
    the user's message only, and the reply is neither appended nor
    shown. *)
Theorem accepted_reply_completes_session (E : env) (st : session_state)
    (prompt response : string) (c : dict) :
  let s := initialized st in
  categorization_complete s = false ->
  chat_input E = Some prompt ->
  prompt <> EmptyString ->
  completion E (request_of E (messages s) prompt) = Ok (Some response) ->
  extract_categorization_body response = Ok (Some c) ->
  Dict.mem "reason" c = true ->
  run E st
  = (Raise RerunException,
     {| state := stored (completed_with (with_message s (user_message prompt)) c);
        log := (history_events (messages s)
                  ++ turn_events E (messages s) prompt
                  ++ [called_extract response])%list |}).
Proof.
  intros s Hc Hin Hp Hreply Hbody Hreason.
  destruct (body_accepts_tests _ _ Hbody) as (Ht & Hvalid & Hboth).
  unfold run. rewrite (main_not_complete E st [] Hc).
  rewrite (chat_turn_spec E _ _ prompt Hin (truthy_nonempty _ Hp)).
  fold s. rewrite Hreply, Ht, handle_response_spec, Hbody, Hboth, Hreason, Hvalid.
  cbn [app]. now rewrite <- app_assoc.
Qed.

Lemma accepted_reply_completes_session_witness :
  let E := scripted (Some "I cough") false (Ok (Some text_category_reply)) in
  let c := [("category", PyInt 3); ("reason", PyStr "cough"); ("urgent", PyBool false)] in
  let s := initialized empty_state in
  categorization_complete s = false
  /\ chat_input E = Some "I cough"
  /\ "I cough" <> EmptyString
  /\ completion E (request_of E (messages s) "I cough") = Ok (Some text_category_reply)
  /\ extract_categorization_body text_category_reply = Ok (Some c)
  /\ Dict.mem "reason" c = true
  /\ run E empty_state
     = (Raise RerunException,
        {| state := stored (completed_with (with_message s (user_message "I cough")) c);
           log := (history_events (messages s)
                     ++ turn_events E (messages s) "I cough"
                     ++ [called_extract text_category_reply])%list |}).
Proof.
  intros E c s.
  assert (Hp : "I cough" <> EmptyString) by discriminate.
  assert (Hb : extract_categorization_body text_category_reply = Ok (Some c))
    by (vm_compute; reflexivity).
  split; [reflexivity |]. split; [reflexivity |]. split; [exact Hp |].
  split; [reflexivity |]. split; [exact Hb |]. split; [reflexivity |].
  exact (accepted_reply_completes_session E empty_state "I cough" text_category_reply c
           eq_refl eq_refl Hp eq_refl Hb eq_refl).
Defined.



Module ExecutionFacts.
Import ControllerMore.

Lemma suggestion_is_display (category : value) :
  is_display (suggestion category) = true.
Proof.
  unfold suggestion.
  destruct (PyObj.eq_int category 1); [reflexivity |].
  destruct (PyObj.eq_int category 2); [reflexivity |].
  destruct (PyObj.eq_int category 3); [reflexivity |].
  destruct (PyObj.eq_int category 4); reflexivity.
Qed.

(** What showing the final result adds to the log. *)
Lemma show_final_result_log (s : Session) (l : list event) :
  exists r shown,
    show_final_result {| state := stored s; log := l |}
    = (r, {| state := stored s; log := (l ++ shown)%list |})
    /\ forallb is_display shown = true.
Proof.
  unfold show_final_result. cbv [bind read lift].
  cbn [state stored st_categorization_complete st_final_category].
  destruct (categorization_complete s && truthy_categorization (final_category s)).
  2:{ exists (Ok tt), []. now rewrite app_nil_r. }
  destruct (PyObj.getitem _ "category") as [category | e].
  2:{ exists (Raise e), []. now rewrite app_nil_r. }
  destruct (PyObj.getitem _ "reason") as [reason | e].
  2:{ exists (Raise e), []. now rewrite app_nil_r. }
  rewrite display_final_result_spec. cbn [state log].
  destruct (in_APPOINTMENT_CATEGORIES category) as [[|] | e]; do 2 eexists;
    (split; [reflexivity |]); cbn [forallb is_display andb];
    try reflexivity.
  now rewrite suggestion_is_display.
Qed.

(** Every execution of the script is one of the cases of [execution]. *)
Lemma run_execution (E : env) (st : session_state) :
  exists r s' l,
    run E st
    = (r, {| state := stored s';
             log := (history_events (messages (initialized st)) ++ l)%list |})
    /\ execution E (initialized st) r s' l.
Proof.
  unfold run.
  destruct (main_spec E st []) as (r0 & l0 & Hf & ->).
  remember (initialized st) as s eqn:Hs. clear Hs.
  cbn [app] in Hf.
  destruct (show_final_result_log s (history_events (messages s)))
    as (r1 & shown & Hlog & Hshown).
  rewrite Hlog in Hf. injection Hf as <- <-.
  destruct (categorization_complete s) eqn:Hc.
  - destruct r1 as [[] | e].
    + unfold after_displays. rewrite Hc. cbn [negb]. destruct (button E) eqn:Hb.
      * rewrite reset_session_spec. exists (Raise RerunException), initial_session, shown.
        split; [reflexivity | now apply session_reset].
      * exists (Ok tt), s, shown. split; [reflexivity | now apply result_shown].
    + exists (Raise e), s, shown. split; [reflexivity |].
      apply display_raises; [assumption | assumption | now rewrite Hlog].
  - rewrite (show_final_result_not_complete _ _ Hc) in Hlog.
    injection Hlog as <- Hl.
    assert (shown = []) as ->.
    { apply (f_equal (@List.length event)) in Hl. rewrite length_app in Hl.
      destruct shown; [reflexivity | cbn in Hl; lia]. }
    rewrite app_nil_r. unfold after_displays. rewrite Hc. cbn [negb].
    destruct (chat_input E) as [prompt |] eqn:Hin.
    2:{ unfold chat_turn. rewrite Hin. exists (Ok tt), s, [].
        rewrite app_nil_r. split; [reflexivity | apply nothing_submitted; auto]. }
    destruct prompt as [| a prompt].
    { unfold chat_turn. rewrite Hin. cbn [PyStr.truthy]. exists (Ok tt), s, [].
      rewrite app_nil_r. split; [reflexivity | apply nothing_submitted; auto]. }
    assert (Hp : String a prompt <> EmptyString) by discriminate.
    rewrite (chat_turn_spec E _ _ _ Hin eq_refl).
    destruct (completion E _) as [[response |] | e] eqn:Hreply.
    + destruct response as [| b response].
      * cbn [PyStr.truthy]. do 3 eexists. split; [reflexivity |].
        apply no_reply; auto.
      * assert (Hr : String b response <> EmptyString) by discriminate.
        cbn [PyStr.truthy].
        destruct (handle_response_cases (String b response)
                    (with_message s (user_message (String a prompt)))
                    (history_events (messages s)
                       ++ turn_events E (messages s) (String a prompt)))
          as [(c & Hb & Hm & ->) | (printed & Hb & -> & Hpr)].
        -- do 3 eexists. split; [now rewrite <- app_assoc |].
           eapply session_completed; eauto.
        -- do 3 eexists. split; [now rewrite <- app_assoc |].
           eapply conversation_continued; eauto.
    + do 3 eexists. split; [reflexivity |]. apply no_reply; auto.
    + destruct (is_Exception e) eqn:He.
      * do 3 eexists. cbn [state log]. split; [now rewrite <- app_assoc |].
        now apply call_failed.
      * do 3 eexists. split; [reflexivity |]. now apply call_interrupted.
Qed.

End ExecutionFacts.

Module HistoryFacts.
Import DecoderFacts ExtractorFacts ControllerFacts ExtractorMore ControllerMore
  ExecutionFacts.

Lemma turns_roles (l : list Message) :
  turns l -> Forall (fun m => role m = "user" \/ role m = "assistant") l.
Proof.
  induction 1 as [| l prompt _ IH | l prompt response _ IH].
  - constructor.
  - apply Forall_app. split; [exact IH |].
    apply Forall_cons; [now left | apply Forall_nil].
  - apply Forall_app. split; [exact IH |].
    apply Forall_cons; [now left |]. apply Forall_cons; [now right | apply Forall_nil].
Qed.



Lemma history_events_no_request (history : list Message) (request : list Message) :
  ~ In (called_api request) (history_events history).
Proof.
  induction history as [| m history IH]; cbn; [tauto |].
  intros [H | [H | H]]; [discriminate | discriminate | contradiction].
Qed.

Lemma display_no_request (shown : list event) (request : list Message) :
  forallb is_display shown = true -> ~ In (called_api request) shown.
Proof.
  intros H Hin. rewrite forallb_forall in H. specialize (H _ Hin). discriminate.
Qed.

Lemma execution_history (E : env) (s s' : Session) (r : res unit) (l : list event) :
  execution E s r s' l -> history_invariant s -> history_invariant s'.
Proof.
  intros Hex [Ht Hend].
  destruct Hex; try (split; assumption); unfold history_invariant;
    cbn [messages categorization_complete with_message completed_with initial_session].
  - split; [constructor | discriminate].
  - split; [now constructor | congruence].
  - split; [now constructor | congruence].
  - split; [now constructor | congruence].
  - split; [now constructor | eauto].
  - rewrite <- app_assoc. cbn [app]. split; [now constructor | congruence].
Qed.

End HistoryFacts.

Import ExecutionFacts HistoryFacts.

(** X8.  One execution of the script either empties the history (the
    reset, when the session is complete and the button clicked), or
    leaves it as it is, or, in a session that is not complete, appends
    the text submitted as user message, followed or not by the reply of
    the service, as it came, as assistant message.  Nothing else is ever
    written to the history, and nothing in it is changed. *)
Theorem history_changes_by_one_turn (E : env) (st : session_state) :
  let before := messages (initialized st) in
  let after := messages (initialized (next_state E st)) in
  (categorization_complete (initialized st) = true /\ button E = true /\ after = [])
  \/ after = before
  \/ exists prompt,
       categorization_complete (initialized st) = false
       /\ chat_input E = Some prompt /\ prompt <> EmptyString
       /\ (after = (before ++ [user_message prompt])%list
           \/ exists response,
                completion E (request_of E before prompt) = Ok (Some response)
                /\ response <> EmptyString
                /\ after = (before ++ [user_message prompt; assistant_message response])%list).
Proof.
  cbv zeta. unfold next_state.
  destruct (run_execution E st) as (r & s' & l & -> & Hex).
  cbn [snd state]. rewrite initialized_stored.
  destruct Hex; cbn [messages with_message completed_with initial_session]; auto.
  - right. right. exists prompt. auto.
  - right. right. exists prompt. auto.
  - right. right. exists prompt. auto.
  - right. right. exists prompt. auto.
  - right. right. exists prompt. repeat (split; [assumption |]).
    right. exists response. rewrite <- app_assoc. auto.
Qed.

(** X9.  In every state a session can reach, the history is a sequence
    of turns, each a message of the user followed or not by one of the
    assistant: every message has the role user or assistant, and an
    assistant message always follows a user message.  Once the session
    is complete the history ends with a user message: the reply that
    ended it is not in the history. *)
Theorem reachable_history_is_turns (st : session_state) :
  reachable st ->
  turns (messages (initialized st))
  /\ Forall (fun m => role m = "user" \/ role m = "assistant")
       (messages (initialized st))
  /\ (categorization_complete (initialized st) = true ->
      exists l prompt,
        messages (initialized st) = (l ++ [user_message prompt])%list).
Proof.
  intros Hr.
  assert (H : history_invariant (initialized st)).
  { induction Hr as [| E st _ IH].
    - split; [constructor | discriminate].
    - unfold next_state. destruct (run_execution E st) as (r & s' & l & -> & Hex).
      cbn [snd state]. rewrite initialized_stored.
      exact (execution_history _ _ _ _ _ Hex IH). }
  destruct H as [Ht Hend]. split; [exact Ht |]. split; [now apply turns_roles | exact Hend].
Qed.

Lemma reachable_history_is_turns_witness :
  reachable vaccine_state
  /\ turns (messages (initialized vaccine_state))
  /\ Forall (fun m => role m = "user" \/ role m = "assistant")
       (messages (initialized vaccine_state))
  /\ (categorization_complete (initialized vaccine_state) = true ->
      exists l prompt,
        messages (initialized vaccine_state) = (l ++ [user_message prompt])%list).
Proof.
  assert (Hr : reachable vaccine_state) by apply reachable_run, reachable_fresh.
  split; [exact Hr |]. exact (reachable_history_is_turns vaccine_state Hr).
Defined.



(** X11.  The completion service is called only within a turn: when a
    request is sent, the session is not complete, a text that is not
    empty was submitted, and the request is the system prompt, then the
    history, then the text submitted as user message.  In a complete
    session, and when nothing is submitted, no request is sent. *)
Theorem service_is_called_only_in_a_turn (E : env) (st : session_state)
    (request : list Message) :
  In (called_api request) (log (snd (run E st))) ->
  categorization_complete (initialized st) = false
  /\ exists prompt,
       chat_input E = Some prompt /\ prompt <> EmptyString
       /\ request = request_of E (messages (initialized st)) prompt.
Proof.
  destruct (run_execution E st) as (r & s' & l & -> & Hex). cbn [snd log].
  intros Hin. apply in_app_or in Hin as [Hin | Hin];
    [now apply history_events_no_request in Hin |].
  assert (Hturn : forall prompt extra,
    In (called_api request) (turn_events E (messages (initialized st)) prompt ++ extra) ->
    (forall x, In x extra -> x <> called_api request) ->
    request = request_of E (messages (initialized st)) prompt).
  { intros prompt extra H Hextra. apply in_app_or in H as [H | H].
    - cbn in H. repeat (destruct H as [H | H]; try discriminate H).
      + now injection H as <-.
      + contradiction.
    - now destruct (Hextra _ H). }
  destruct Hex;
    try (now apply display_no_request in Hin);
    try contradiction;
    (split; [assumption |]); exists prompt; (split; [assumption |]);
    (split; [assumption |]).
  - apply (Hturn prompt []); [now rewrite app_nil_r | intros x []].
  - apply (Hturn prompt [st_error_api e]); [assumption |].
    intros x [<- | []]. discriminate.
  - apply (Hturn prompt []); [now rewrite app_nil_r | intros x []].
  - apply (Hturn prompt [called_extract response]); [assumption |].
    intros x [<- | []]. discriminate.
  - apply (Hturn prompt (called_extract response :: printed ++ [st_markdown (rtl response)]));
      [assumption |].
    intros x [<- | Hx]; [discriminate |]. apply in_app_or in Hx as [Hx | [<- | []]];
      [| discriminate].
    destruct H5 as [-> | (e & ->)]; [contradiction |].
    destruct Hx as [<- | []]. discriminate.
Qed.

Lemma service_is_called_only_in_a_turn_witness :
  let E := scripted (Some "I cough") false (Ok (Some "Since when do you cough?")) in
  let request := request_of E [] "I cough" in
  In (called_api request) (log (snd (run E empty_state)))
  /\ categorization_complete (initialized empty_state) = false
  /\ exists prompt,
       chat_input E = Some prompt /\ prompt <> EmptyString
       /\ request = request_of E (messages (initialized empty_state)) prompt.
Proof.
  intros E request.
  assert (Hin : In (called_api request) (log (snd (run E empty_state)))).
  { vm_compute. do 4 right. left. reflexivity. }
  split; [exact Hin |].
  exact (service_is_called_only_in_a_turn E empty_state request Hin).
Defined.

(** X12.  An exception of the service that does not derive from
    [Exception] is not caught: the client raises it, no error is shown,
    and it ends the execution of the script, the user's message being
    already in the history. *)
Theorem other_exception_propagates (E : env) (st : session_state)
    (prompt : string) (e : exn) :
  let s := initialized st in
  categorization_complete s = false ->
  chat_input E = Some prompt ->
  prompt <> EmptyString ->
  completion E (request_of E (messages s) prompt) = Raise e ->
  is_Exception e = false ->
  (forall w,
     call_openai_api E (messages s ++ [user_message prompt]) w
     = (Raise e,
        {| state := state w;
           log := (log w ++ [called_api (request_of E (messages s) prompt)])%list |}))
  /\ run E st
     = (Raise e,
        {| state := stored (with_message s (user_message prompt));
           log := (history_events (messages s)
                     ++ turn_events E (messages s) prompt)%list |}).
Proof.
  intros s Hc Hin Hp Hfail He. split.
  - intros w. rewrite call_openai_api_spec.
    change ({| role := "system"; content := SYSTEM_PROMPT E |}
              :: messages s ++ [user_message prompt])
      with (request_of E (messages s) prompt).
    now rewrite Hfail, He.
  - unfold run. rewrite (main_not_complete E st [] Hc).
    rewrite (chat_turn_spec E _ _ prompt Hin (truthy_nonempty _ Hp)).
    fold s. now rewrite Hfail, He.
Qed.

Lemma other_exception_propagates_witness :
  let E := scripted (Some "hello") false (Raise KeyboardInterrupt) in
  let s := initialized empty_state in
  categorization_complete s = false
  /\ chat_input E = Some "hello"
  /\ "hello" <> EmptyString
  /\ completion E (request_of E (messages s) "hello") = Raise KeyboardInterrupt
  /\ is_Exception KeyboardInterrupt = false
  /\ run E empty_state
     = (Raise KeyboardInterrupt,
        {| state := stored (with_message s (user_message "hello"));
           log := (history_events (messages s)
                     ++ turn_events E (messages s) "hello")%list |}).
Proof.
  intros E s.
  assert (Hp : "hello" <> EmptyString) by discriminate.
  split; [reflexivity |]. split; [reflexivity |]. split; [exact Hp |].
  split; [reflexivity |]. split; [reflexivity |].
  exact (proj2 (other_exception_propagates E empty_state "hello" KeyboardInterrupt
                  eq_refl eq_refl Hp eq_refl eq_refl)).
Defined.

(** X13.  [initialize_session_state] returns normally and writes only
    the keys that are not set: a key that is set keeps its value, so that
    a session in progress goes through it unchanged, and a fresh session
    gets an empty history, a false flag and no result.  Running it a
    second time changes nothing. *)
Theorem initialize_keeps_what_is_set (st : session_state) (l : list event) :
  exists st' : session_state,
    initialize_session_state {| state := st; log := l |}
    = (Ok tt, {| state := st'; log := l |})
    /\ (forall m, st_messages st = Some m -> st_messages st' = Some m)
    /\ (forall b, st_categorization_complete st = Some b ->
                  st_categorization_complete st' = Some b)
    /\ (forall c, st_final_category st = Some c -> st_final_category st' = Some c)
    /\ (st_messages st = None -> st_messages st' = Some [])
    /\ (st_categorization_complete st = None ->
        st_categorization_complete st' = Some false)
    /\ (st_final_category st = None -> st_final_category st' = Some None)
    /\ initialize_session_state {| state := st'; log := l |}
       = (Ok tt, {| state := st'; log := l |}).
Proof.
  exists (stored (initialized st)). rewrite initialize_session_state_spec.
  split; [reflexivity |].
  destruct st as [[m |] [c |] [f |]]; cbn;
    repeat split; try congruence; try discriminate; reflexivity.
Qed.



(** X15.  For a category equal to none of the four codes,
    [display_final_result] shows the success notice, which comes before
    the test, and then stops: on a hashable category it shows the
    invalid-category error and returns; on a list or a dict the test
    raises [TypeError].  No result and no suggestion is shown. *)
Theorem display_of_invalid_category (category reason : value) (w : world) :
  ~ valid_code category ->
  display_final_result category reason w
  = if PyObj.hashable category
    then (Ok tt,
          {| state := state w;
             log := (log w ++ [st_success_found; st_error_category category])%list |})
    else (Raise TypeError,
          {| state := state w; log := (log w ++ [st_success_found])%list |}).
Proof.
  intros Hn. rewrite display_final_result_spec.
  destruct (PyObj.hashable category) eqn:Hh.
  - now rewrite (not_valid_code _ Hh Hn).
  - unfold in_APPOINTMENT_CATEGORIES. now rewrite Hh.
Qed.

Lemma display_of_invalid_category_witness :
  let w := {| state := empty_state; log := [] |} in
  ~ valid_code (PyInt 9)
  /\ display_final_result (PyInt 9) (PyStr "unclear") w
     = (Ok tt,
        {| state := state w;
           log := (log w ++ [st_success_found; st_error_category (PyInt 9)])%list |}).
Proof.
  intros w.
  assert (Hn : ~ valid_code (PyInt 9)).
  { intros (k & Hk & Heq). unfold PyObj.eq_int in Heq. apply Z.eqb_eq in Heq. lia. }
  split; [exact Hn |].
  exact (display_of_invalid_category (PyInt 9) (PyStr "unclear") w Hn).
Defined.



(** X17.  The state the reset leaves is a fresh session: every execution
    of the script from it is the execution from an empty
    [st.session_state], with the same outcome, state and output. *)
Theorem reset_state_is_fresh (E : env) (w : world) :
  run E (state (snd (reset_session w))) = run E empty_state.
Proof.
  rewrite reset_session_spec. cbn [snd state]. unfold run, main.
  rewrite (bind_Ok _ _ _ _ _ (initialize_session_state_spec (stored initial_session) [])).
  rewrite (bind_Ok _ _ _ _ _ (initialize_session_state_spec empty_state [])).
  reflexivity.
Qed.
